(** * Checkpoint acquisition of the nougat training repository

    A shallow embedding of [nougat/utils/checkpoint.py] (the checkpoint
    resolver) and of [CustomCheckpointIO.load_checkpoint] from [train.py],
    together with the properties of the design contract.

    The Python code talks to three pieces of environment, each modelled
    explicitly:
    - the file system, a finite map from (POSIX, [pathlib]) paths to nodes,
      read and written through the few [pathlib]/[os] calls the code makes;
    - the release server, a function from URLs to replies of [requests.get];
    - the process environment ([os.environ]) and [torch.hub.get_dir()].

    Effects are threaded through a state-and-exception monad whose state also
    records a trace of every effect, so that "a request was issued" or
    "nothing was touched" are statements about the trace. *)

From Stdlib Require Import Ascii String.
From stdpp Require Import gmap strings list fin_maps.

Local Open Scope string_scope.

(* ===================================================================== *)
(** * Paths: the fragment of [pathlib.PurePosixPath] the code uses        *)
(* ===================================================================== *)

Module Pathlib.

(** The anchor of a POSIX path: relative, ["/"], or the implementation
    defined ["//"] that [posixpath.splitroot] keeps apart. *)
Inductive Anchor := Relative | Root | Root2.

Record Path := mkPath { anchor : Anchor; parts : list string }.

#[global] Instance Anchor_eq_dec : EqDecision Anchor.
Proof. solve_decision. Defined.

#[global] Instance Path_eq_dec : EqDecision Path.
Proof. solve_decision. Defined.

Definition anchor_code (a : Anchor) : nat :=
  match a with Relative => 0 | Root => 1 | Root2 => 2 end.

Definition anchor_decode (n : nat) : Anchor :=
  match n with 0 => Relative | 1 => Root | _ => Root2 end.

#[global] Instance Path_countable : Countable Path.
Proof.
  refine (inj_countable' (fun p => (anchor_code (anchor p), parts p))
                         (fun t => mkPath (anchor_decode t.1) t.2) _).
  intros [[] ps]; reflexivity.
Defined.

(** [s.split("/")] *)
Fixpoint split_slash (s : string) : list string :=
  match s with
  | EmptyString => [EmptyString]
  | String c rest =>
      if Ascii.eqb c "/" then EmptyString :: split_slash rest
      else match split_slash rest with
           | [] => [String c EmptyString]
           | h :: t => String c h :: t
           end
  end.

(** [posixpath.splitroot]: one leading slash, or three and more, give the
    root ["/"]; exactly two give ["//"]. *)
Definition splitroot (s : string) : Anchor :=
  match s with
  | String c0 s1 =>
      if Ascii.eqb c0 "/" then
        match s1 with
        | String c1 s2 =>
            if Ascii.eqb c1 "/" then
              match s2 with
              | String c2 _ => if Ascii.eqb c2 "/" then Root else Root2
              | EmptyString => Root2
              end
            else Root
        | EmptyString => Root
        end
      else Relative
  | EmptyString => Relative
  end.

Definition keep_part (x : string) : bool :=
  negb (String.eqb x "") && negb (String.eqb x ".").

(** [Path(s)] for a string: empty and ["."] components are dropped, [".."]
    is kept, so that [Path("")] is the path ["."] with no parts. *)
Definition of_string (s : string) : Path :=
  mkPath (splitroot s) (List.filter keep_part (split_slash s)).

(** [p.parent]: purely lexical; the anchor alone is its own parent. *)
Definition parent (p : Path) : Path :=
  mkPath (anchor p) (removelast (parts p)).

(** [p / s] *)
Definition truediv (p : Path) (s : string) : Path :=
  let q := of_string s in
  match anchor q with
  | Relative => mkPath (anchor p) (parts p ++ parts q)
  | _ => q
  end.

(** [p.name] *)
Definition name (p : Path) : string := List.last (parts p) "".

(** [str(p)] *)
Definition anchor_str (a : Anchor) : string :=
  match a with Relative => "" | Root => "/" | Root2 => "//" end.

Definition to_string (p : Path) : string :=
  match anchor p, parts p with
  | Relative, [] => "."
  | a, ps => anchor_str a ++ String.concat "/" ps
  end.

End Pathlib.

Export Pathlib.

Infix "</>" := truediv (at level 40, left associativity).

(* ===================================================================== *)
(** * The world: file system, effect trace, exceptions                    *)
(* ===================================================================== *)

Abbreviation bytes := (list Byte.byte).

Inductive Node := File (content : bytes) | Dir.

(** What [requests] raises: none of it is an [OSError] for the code here. *)
Inductive RequestException :=
  ConnectionError | Timeout | ChunkedEncodingError | TooManyRedirects.

Inductive Exn :=
| FileNotFoundError
| FileExistsError
| NotADirectoryError
| IsADirectoryError
| RequestError (e : RequestException)
| UnpicklingError.

Definition is_OSError (e : Exn) : bool :=
  match e with
  | FileNotFoundError | FileExistsError | NotADirectoryError
  | IsADirectoryError => true
  | RequestError _ | UnpicklingError => false
  end.

(** Every call that leaves the process is recorded, in order. *)
Inductive Event :=
| EvMkdir (p : Path)
| EvPrint (line : string)
| EvGet (url : string)
| EvWrite (p : Path) (data : bytes).

Record World := mkWorld { fs : gmap Path Node; trace : list Event }.

Inductive Result (A : Type) := Ok (a : A) | Raise (e : Exn).
Arguments Ok {A} a.
Arguments Raise {A} e.

Definition M (A : Type) : Type := World -> Result A * World.

Definition ret {A} (a : A) : M A := fun w => (Ok a, w).

Definition bind {A B} (m : M A) (k : A -> M B) : M B :=
  fun w => match m w with
           | (Ok a, w') => k a w'
           | (Raise e, w') => (Raise e, w')
           end.

Definition raise {A} (e : Exn) : M A := fun w => (Raise e, w).

(** [try: m except: h] *)
Definition catch {A} (m : M A) (h : Exn -> M A) : M A :=
  fun w => match m w with
           | (Ok a, w') => (Ok a, w')
           | (Raise e, w') => h e w'
           end.

Definition log (e : Event) : M unit :=
  fun w => (Ok tt, mkWorld (fs w) (trace w ++ [e])).

Definition get_fs : M (gmap Path Node) := fun w => (Ok (fs w), w).

Definition put_fs (f : gmap Path Node) : M unit :=
  fun w => (Ok tt, mkWorld f (trace w)).

Declare Scope py_scope.
Delimit Scope py_scope with py.
Notation "x <- m ;; k" := (bind m (fun x => k))
  (at level 100, m at next level, right associativity) : py_scope.
Notation "m ;; k" := (bind m (fun _ => k))
  (at level 100, right associativity) : py_scope.
Local Open Scope py_scope.

(** [for x in xs: body(x)] *)
Fixpoint for_each {A} (xs : list A) (body : A -> M unit) : M unit :=
  match xs with
  | [] => ret tt
  | x :: rest => body x ;; for_each rest body
  end.

(* ===================================================================== *)
(** * File system calls                                                   *)
(* ===================================================================== *)

Module FS.

(** The anchors (["/"], the working directory) always exist. Paths are
    identified lexically: the model has no symbolic links, and the three
    anchors span separate trees. *)
Definition node_at (f : gmap Path Node) (p : Path) : option Node :=
  match parts p with
  | [] => Some Dir
  | _ => f !! p
  end.

Definition exists_ (f : gmap Path Node) (p : Path) : bool :=
  match node_at f p with Some _ => true | None => false end.

Definition is_file (f : gmap Path Node) (p : Path) : bool :=
  match node_at f p with Some (File _) => true | _ => false end.

Definition is_dir (f : gmap Path Node) (p : Path) : bool :=
  match node_at f p with Some Dir => true | _ => false end.

(** The proper lexical ancestors of a path given by its anchor and its
    reversed parts, innermost first: [p.parents]. *)
Fixpoint up_from (a : Anchor) (rparts : list string) : list Path :=
  match rparts with
  | [] => []
  | _ :: up => mkPath a (rev up) :: up_from a up
  end.

Definition ancestors (p : Path) : list Path :=
  up_from (anchor p) (rev (parts p)).

(** The [errno] of a path that does not resolve: [ENOTDIR] when a regular
    file stands in the way, [ENOENT] otherwise. *)
Definition lookup_error (f : gmap Path Node) (p : Path) : Exn :=
  if existsb (is_file f) (ancestors p) then NotADirectoryError
  else FileNotFoundError.

Definition is_child (d k : Path) : Prop := parts k <> [] /\ parent k = d.

#[global] Instance is_child_dec d k : Decision (is_child d k).
Proof. unfold is_child. apply _. Defined.

Definition children (f : gmap Path Node) (d : Path) : gmap Path Node :=
  filter (fun kv => is_child d kv.1) f.

(** The names [os.listdir(d)] returns for a directory [d]. *)
Definition listdir (f : gmap Path Node) (d : Path) : list string :=
  (fun kv => name kv.1) <$> map_to_list (children f d).

(** A file system is well formed when every entry sits in a directory. *)
Definition wf (f : gmap Path Node) : Prop :=
  map_Forall (fun k _ => parts k <> [] /\ is_dir f (parent k) = true) f.

#[global] Instance wf_dec f : Decision (wf f).
Proof. unfold wf. apply _. Defined.

End FS.

(** [p.exists()], [p.is_file()], [p.is_dir()] *)
Definition Path_exists (p : Path) : M bool :=
  f <- get_fs ;; ret (FS.exists_ f p).

Definition Path_is_file (p : Path) : M bool :=
  f <- get_fs ;; ret (FS.is_file f p).

Definition Path_is_dir (p : Path) : M bool :=
  f <- get_fs ;; ret (FS.is_dir f p).

(** [os.listdir(p)] *)
Definition os_listdir (p : Path) : M (list string) :=
  f <- get_fs ;;
  match FS.node_at f p with
  | Some Dir => ret (FS.listdir f p)
  | Some (File _) => raise NotADirectoryError
  | None => raise (FS.lookup_error f p)
  end.

(** [os.mkdir(p)] *)
Definition os_mkdir (p : Path) : M unit :=
  f <- get_fs ;;
  match FS.node_at f p with
  | Some _ => raise FileExistsError
  | None =>
      match FS.node_at f (parent p) with
      | Some Dir => put_fs (<[p := Dir]> f)
      | Some (File _) => raise NotADirectoryError
      | None => raise (FS.lookup_error f p)
      end
  end.

(** The tail of [Path.mkdir]: [os.mkdir] with the [except OSError] clause;
    [FileNotFoundError] is re-raised because [parents] is false. *)
Definition mkdir_leaf (p : Path) (exist_ok : bool) : M unit :=
  catch (os_mkdir p) (fun e =>
    match e with
    | FileNotFoundError => raise e
    | _ =>
        if is_OSError e then
          d <- Path_is_dir p ;;
          if negb exist_ok || negb d then raise e else ret tt
        else raise e
    end).

(** [Path.mkdir(parents=True, exist_ok)], by recursion on the reversed
    parts: on [FileNotFoundError] the parent is made first (with
    [exist_ok=True]), then the directory itself without [parents]. *)
Fixpoint mkdir_parents (a : Anchor) (rparts : list string) (exist_ok : bool)
  : M unit :=
  let self := mkPath a (rev rparts) in
  catch (os_mkdir self) (fun e =>
    match e with
    | FileNotFoundError =>
        match rparts with
        | [] => raise e
        | _ :: up => mkdir_parents a up true ;; mkdir_leaf self exist_ok
        end
    | _ =>
        if is_OSError e then
          d <- Path_is_dir self ;;
          if negb exist_ok || negb d then raise e else ret tt
        else raise e
    end).

Definition Path_mkdir (p : Path) (parents exist_ok : bool) : M unit :=
  log (EvMkdir p) ;;
  if parents then mkdir_parents (anchor p) (rev (parts p)) exist_ok
  else mkdir_leaf p exist_ok.

(** [p.write_bytes(data)]: [open(p, "wb")] truncates or creates. *)
Definition Path_write_bytes (p : Path) (data : bytes) : M unit :=
  log (EvWrite p data) ;;
  f <- get_fs ;;
  match FS.node_at f p with
  | Some Dir => raise IsADirectoryError
  | Some (File _) => put_fs (<[p := File data]> f)
  | None =>
      match FS.node_at f (parent p) with
      | Some Dir => put_fs (<[p := File data]> f)
      | Some (File _) => raise NotADirectoryError
      | None => raise (FS.lookup_error f p)
      end
  end.

(** [print(a, b, ...)]: the arguments joined by spaces *)
Definition print (args : list string) : M unit :=
  log (EvPrint (String.concat " " args)).

(* ===================================================================== *)
(** * The release server as [requests] sees it                            *)
(* ===================================================================== *)

(** A response whose headers arrived. The status code is carried but, as in
    the source, nothing reads it. [broken] is the exception that
    [iter_content] raises after the chunks that did arrive, if any. *)
Record Response := mkResponse {
  status_code : nat;
  content_length : option nat;
  chunks : list bytes;
  broken : option RequestException
}.

(** What [requests.get(url, stream=True, allow_redirects=True)] comes back
    with, redirects already followed: an exception or a response. *)
Inductive Reply := Refused (e : RequestException) | Answered (r : Response).

(** The progress bar is local to one download and only ever displayed. *)
Record tqdm := mkTqdm { desc : string; total : nat; n : nat }.

Definition tqdm_update (bar : tqdm) (k : nat) : tqdm :=
  mkTqdm (desc bar) (total bar) (n bar + k).

(** [for chunk in resp.iter_content(...): acc = body(acc, chunk)] *)
Definition iter_content {S} (resp : Response) (body : S -> bytes -> S)
  (init : S) : M S :=
  let s := fold_left body (chunks resp) init in
  match broken resp with
  | Some e => raise (RequestError e)
  | None => ret s
  end.

(* ===================================================================== *)
(** * nougat/utils/checkpoint.py                                          *)
(* ===================================================================== *)

Definition BASE_URL : string :=
  "https://github.com/facebookresearch/nougat/releases/download".
Definition MODEL_TAG : string := "0.1.0-small".

(** The [files] list of [download_checkpoint]. *)
Definition files : list string :=
  [ "config.json";
    "pytorch_model.bin";
    "special_tokens_map.json";
    "tokenizer.json";
    "tokenizer_config.json" ].

(** [f"{BASE_URL}/{MODEL_TAG}/{file}"] *)
Definition download_url (file : string) : string :=
  BASE_URL ++ "/" ++ MODEL_TAG ++ "/" ++ file.

(** An argument of [get_checkpoint]: a string or a [Path] object. *)
Inductive PathLike := PStr (s : string) | PPath (p : Path).

(** Python truthiness of the optional argument: [None] and the empty string
    are falsy, a [Path] object never is. *)
Definition truthy (a : option PathLike) : bool :=
  match a with
  | None => false
  | Some (PStr s) => negb (String.eqb s "")
  | Some (PPath _) => true
  end.

(** [a or b], for the optional argument [a] *)
Definition py_or (a : option PathLike) (b : PathLike) : PathLike :=
  match a with
  | Some x => if truthy a then x else b
  | None => b
  end.

(** [Path(x)] *)
Definition Path_new (x : PathLike) : Path :=
  match x with
  | PStr s => of_string s
  | PPath p => p
  end.

Section Resolver.

(** [os.environ], [torch.hub.get_dir()] and the server. *)
Context (environ : gmap string string) (hub_dir : string)
        (server : string -> Reply).

Definition requests_get (url : string) : M Response :=
  log (EvGet url) ;;
  match server url with
  | Refused e => raise (RequestError e)
  | Answered r => ret r
  end.

Definition download_as_bytes_with_progress (url : string)
  (name : option string) : M bytes :=
  resp <- requests_get url ;;
  let total := default 0 (content_length resp) in
  let name := default url name in
  st <- iter_content resp
          (fun st chunk =>
             (tqdm_update st.1 (length chunk), (st.2 ++ chunk)%list))
          (mkTqdm name total 0, ([] : bytes)) ;;
  ret st.2.

(** The body of the loop of [download_checkpoint]. *)
Definition download_file (checkpoint : Path) (file : string) : M unit :=
  binary_file <- download_as_bytes_with_progress (download_url file)
                   (Some file) ;;
  if (15 <? length binary_file)%nat
  then Path_write_bytes (checkpoint </> file) binary_file
  else ret tt.

Definition download_checkpoint (checkpoint : Path) : M unit :=
  print [ "downloading nougat checkpoint version"; MODEL_TAG; "to path";
          to_string checkpoint ] ;;
  for_each files (download_file checkpoint).

(** [os.environ.get(key, dflt)] *)
Definition environ_get (key dflt : string) : string :=
  default dflt (environ !! key).

(** Lines 58-61: [Path(checkpoint_path or os.environ.get(...))]. *)
Definition initial_checkpoint (checkpoint_path : option PathLike) : Path :=
  Path_new
    (py_or checkpoint_path
       (PStr (environ_get "NOUGAT_CHECKPOINT" (hub_dir ++ "/nougat")))).

Definition get_checkpoint (checkpoint_path : option PathLike)
  (download : bool) : M Path :=
  let checkpoint := initial_checkpoint checkpoint_path in
  e <- Path_exists checkpoint ;;
  f <- (if e then Path_is_file checkpoint else ret false) ;;
  let checkpoint := if f then parent checkpoint else checkpoint in
  go <- (if download then
           e <- Path_exists checkpoint ;;
           if negb e then ret true
           else l <- os_listdir checkpoint ;; ret (length l <? 5)%nat
         else ret false) ;;
  (if go : bool then
     Path_mkdir checkpoint true true ;;
     download_checkpoint checkpoint
   else ret tt) ;;
  ret checkpoint.

End Resolver.

(* ===================================================================== *)
(** * train.py: [CustomCheckpointIO.load_checkpoint]                      *)
(* ===================================================================== *)

Module Train.

(** The Python values a checkpoint mapping holds. *)
#[warnings="-register-all"]
Inductive pyobj :=
| PyInt (z : Z)
| PyStr (s : string)
| PyTensor (data : list Z)
| PyDict (items : gmap string pyobj).

Abbreviation checkpoint := (gmap string pyobj).

#[global] Instance append_inj (pre : string) : Inj (=) (=) (String.append pre).
Proof.
  intros a b; induction pre as [|c pre IH]; simpl; [done|].
  intros [= H]; auto.
Qed.

(** [{"model." + key: value for key, value in d.items()}] *)
Definition prefix_keys (d : checkpoint) : checkpoint :=
  kmap (String.append "model.") d.

Definition str_of_bool (b : bool) : string := if b then "True" else "False".

Section CheckpointIO.

(** The deserialiser behind [torch.load]: the mapping a file's bytes
    hold, or [None] when they are not a pickled mapping. *)
Context (unpickle : bytes -> option checkpoint).

(** [torch.load(path)] *)
Definition torch_load (path : Path) : M checkpoint :=
  f <- get_fs ;;
  match FS.node_at f path with
  | Some (File b) =>
      match unpickle b with
      | Some d => ret d
      | None => raise UnpicklingError
      end
  | Some Dir => raise IsADirectoryError
  | None => raise (FS.lookup_error f path)
  end.

Definition load_checkpoint (path : PathLike) : M checkpoint :=
  let path := Path_new path in
  is_f <- Path_is_file path ;;
  if is_f : bool then
    is_d <- Path_is_dir path ;;
    print ["path:"; to_string path; str_of_bool is_d] ;;
    ckpt <- torch_load path ;;
    if negb (bool_decide ("state_dict" ∈ dom ckpt)) then
      weights <- torch_load (parent path </> "pytorch_model.bin") ;;
      ret (<["state_dict" := PyDict (prefix_keys weights)]> ckpt)
    else ret ckpt
  else
    checkpoint <- torch_load (path </> "artifacts.ckpt") ;;
    state_dict <- torch_load (path </> "pytorch_model.bin") ;;
    ret (<["state_dict" := PyDict (prefix_keys state_dict)]> checkpoint).

End CheckpointIO.

Section Saving.

(** The serialiser behind [torch.save]. *)
Context (pickle : checkpoint -> bytes).

(** [torch.save(obj, path)]: the file is created or truncated, then holds
    the serialised object. A file that cannot be created is reported here
    with the error of the underlying [open]. *)
Definition torch_save (obj : checkpoint) (path : Path) : M unit :=
  Path_write_bytes path (pickle obj).

Definition save_checkpoint (ckpt : checkpoint) (path : PathLike) : M unit :=
  torch_save ckpt (Path_new path).

End Saving.

End Train.

(* ===================================================================== *)
(** * train.py: the driver around [train]                                 *)
(* ===================================================================== *)

Module Driver.

(** [s.split(sep)] for a one-character separator. *)
Fixpoint split_on (sep : ascii) (s : string) : list string :=
  match s with
  | EmptyString => [EmptyString]
  | String c rest =>
      if Ascii.eqb c sep then EmptyString :: split_on sep rest
      else match split_on sep rest with
           | [] => [String c EmptyString]
           | h :: t => String c h :: t
           end
  end.

(** [os.path.basename(p)]: what follows the last slash. *)
Definition basename (p : string) : string :=
  List.last (split_on "/" p) EmptyString.

(** [basename(args.config).split(".")[0]] *)
Definition derived_exp_name (config_path : string) : string :=
  List.hd EmptyString (split_on "." (basename config_path)).

(** Lines 171-172: [config.exp_name] after the start-up code, given what
    [config.get("exp_name", False)] found. *)
Definition exp_name (configured : option string) (config_path : string)
  : string :=
  match configured with
  | Some s => if String.eqb s "" then derived_exp_name config_path else s
  | None => derived_exp_name config_path
  end.

(** Lines 173-177: [config.exp_version], [now] being the formatted time of
    the start. *)
Definition exp_version (now : string) (arg : option string) : string :=
  match arg with
  | Some s => if String.eqb s "" then now else s
  | None => now
  end.

(** Lines 179-181: [Path(config.result_path) / config.exp_name /
    config.exp_version], the directory of the run. *)
Definition run_dir (result_path : string) (configured : option string)
  (config_path now : string) (version_arg : option string) : Path :=
  of_string result_path </> exp_name configured config_path
                        </> exp_version now version_arg.

(** [posixpath.split] leaves an empty head exactly for a relative path of
    one part. *)
Definition head_is_empty (a : Anchor) (up : list string) : bool :=
  match a, up with
  | Relative, [] => true
  | _, _ => false
  end.

(** [os.makedirs(name)] with [exist_ok=False], along the reversed parts of
    [name]: the head is made first when it is not empty and does not
    exist, a [FileExistsError] from that being passed over; then
    [os.mkdir(name)], whose errors are all re-raised. *)
Fixpoint makedirs (a : Anchor) (rparts : list string) : M unit :=
  let name := mkPath a (rev rparts) in
  match rparts with
  | [] => os_mkdir name
  | _ :: up =>
      let head := mkPath a (rev up) in
      (if negb (head_is_empty a up) then
         e <- Path_exists head ;;
         if negb e then
           catch (makedirs a up)
                 (fun e => match e with
                           | FileExistsError => ret tt
                           | _ => raise e
                           end)
         else ret tt
       else ret tt) ;;
      os_mkdir name
  end.

Definition os_makedirs (name : Path) : M unit :=
  makedirs (anchor name) (rev (parts name)).

Section SaveConfig.

(** The rank of the process, and the two renderings of the configuration:
    [config.dumps()] and [config.dumps(modified_color=None,
    quote_str=True)]. *)
Context (rank : nat) (dumps dumps_plain : string).

(** [with open(p, "w") as f: f.write(text)] *)
Definition write_text (p : Path) (text : string) : M unit :=
  Path_write_bytes p (list_byte_of_string text).

(** The body of [save_config_file]. *)
Definition save_config_file_body (path : Path) : M unit :=
  e <- Path_exists path ;;
  (if negb e then os_makedirs path else ret tt) ;;
  let save_path := path </> "config.yaml" in
  print [dumps] ;;
  write_text save_path dumps_plain ;;
  print ["Config is saved at " ++ to_string save_path].

(** [@rank_zero_only]: the body runs on rank zero only. *)
Definition save_config_file (path : Path) : M unit :=
  if (rank =? 0)%nat then save_config_file_body path else ret tt.

End SaveConfig.

End Driver.

(* ===================================================================== *)
(** * Vocabulary of the statements                                        *)
(* ===================================================================== *)

(** The URLs requested, in order, among some events. *)
Definition requests (evs : list Event) : list string :=
  omap (fun e => match e with EvGet u => Some u | _ => None end) evs.

(** The paths written, in order, among some events. *)
Definition writes (evs : list Event) : list Path :=
  omap (fun e => match e with EvWrite p _ => Some p | _ => None end) evs.

(** Lines 62-63 read off a file system: an existing regular file stands for
    its parent directory. *)
Definition resolved (f : gmap Path Node) (c : Path) : Path :=
  if FS.exists_ f c && FS.is_file f c then parent c else c.

Section Served.

Context (server : string -> Reply).

(** The exception, if any, that fetching [file] ends in: [requests.get]
    refusing, or the body stream breaking. The status code has no say. *)
Definition fetch_error (file : string) : option RequestException :=
  match server (download_url file) with
  | Refused e => Some e
  | Answered r => broken r
  end.

(** The bytes the server sends for [file]. *)
Definition payload (file : string) : bytes :=
  match server (download_url file) with
  | Refused _ => []
  | Answered r => concat (chunks r)
  end.

(** What one turn of the loop leaves on disk and in the trace when the
    download succeeds. *)
Definition store (c : Path) (f : gmap Path Node) (file : string)
  : gmap Path Node :=
  if (15 <? length (payload file))%nat
  then <[c </> file := File (payload file)]> f
  else f.

Definition turn_events (c : Path) (file : string) : list Event :=
  EvGet (download_url file) ::
  if (15 <? length (payload file))%nat
  then [EvWrite (c </> file) (payload file)]
  else [].

End Served.

(** A plain file name: one relative component. *)
Definition plain_name (s : string) : Prop := of_string s = mkPath Relative [s].

(** The world after logging some more events. *)
Definition logged (w : World) (evs : list Event) : World :=
  mkWorld (fs w) (trace w ++ evs).

(** The file system once [Path.mkdir(parents=True)] has made the path with
    the given anchor and reversed parts, and every ancestor of it. *)
Fixpoint with_dirs (a : Anchor) (rparts : list string) (f : gmap Path Node)
  : gmap Path Node :=
  match rparts with
  | [] => f
  | _ :: up => <[mkPath a (rev rparts) := Dir]> (with_dirs a up f)
  end.

(** The fetch-and-populate pass, lines 65-66 of [get_checkpoint]. *)
Definition fetch_pass (server : string -> Reply) (c : Path) : M Path :=
  Path_mkdir c true true ;; download_checkpoint server c ;; ret c.

(** A computation only ever adds to the trace. *)
Definition appends {A} (m : M A) : Prop :=
  forall w, exists evs, trace (m w).2 = (trace w ++ evs)%list.

(** ** A worked scenario, used to exercise the statements *)

Definition sample (k : nat) : bytes := repeat Byte.x41 k.

(** A server that answers every URL with [k] bytes and status 200. *)
Definition steady_server (k : nat) : string -> Reply :=
  fun _ => Answered (mkResponse 200 (Some k) [sample k] None).

(** A server that answers every URL with status 404 and a short body. *)
Definition not_found_server : string -> Reply :=
  fun _ => Answered (mkResponse 404 (Some 9) [sample 9] None).

(** A server whose third artifact cannot be reached. *)
Definition flaky_server : string -> Reply :=
  fun url =>
    if String.eqb url (download_url "special_tokens_map.json")
    then Refused ConnectionError
    else steady_server 100 url.

Definition demo_environ : gmap string string :=
  {[ "NOUGAT_CHECKPOINT" := "/env/ckpt" ]}.

Definition demo_hub : string := "/home/u/.cache/torch/hub".

Definition demo_dir : Path := of_string "/data/ckpt".

(** [/data/ckpt] exists and is empty. *)
Definition empty_dir_fs : gmap Path Node :=
  <[demo_dir := Dir]> (<[of_string "/data" := Dir]> ∅).

(** [/data/ckpt] holds four of the five artifacts, with stale content. *)
Definition four_files_fs : gmap Path Node :=
  foldr (fun file f => <[demo_dir </> file := File (sample 20)]> f)
        empty_dir_fs
        ["config.json"; "pytorch_model.bin"; "special_tokens_map.json";
         "tokenizer.json"].

(** [/data/ckpt] holds five entries, none of them an artifact. *)
Definition five_entries_fs : gmap Path Node :=
  foldr (fun file f => <[demo_dir </> file := File []]> f)
        empty_dir_fs ["a"; "b"; "c"; "d"; "e"].

(** A deserialiser for the scenario: one byte is a training checkpoint
    without weights, anything longer is a bare weights file. *)
Definition demo_unpickle (b : bytes) : option Train.checkpoint :=
  match b with
  | [] => None
  | [_] => Some {[ "epoch" := Train.PyInt 3 ]}
  | _ => Some {[ "encoder.weight" := Train.PyTensor [1%Z; 2%Z] ]}
  end.

(** [/run/last.ckpt] next to [/run/pytorch_model.bin]. *)
Definition train_fs : gmap Path Node :=
  <[of_string "/run/last.ckpt" := File (sample 1)]>
    (<[of_string "/run/pytorch_model.bin" := File (sample 2)]>
       (<[of_string "/run" := Dir]> ∅)).

(** The line [download_checkpoint] prints first. *)
Definition banner (c : Path) : Event :=
  EvPrint (String.concat " "
    ["downloading nougat checkpoint version"; MODEL_TAG; "to path";
     to_string c]).

(** [/data/ckpt] holds a directory named like the third artifact. *)
Definition squatted_fs : gmap Path Node :=
  <[demo_dir </> "special_tokens_map.json" := Dir]> empty_dir_fs.

(** A checkpoint that carries its weights, with a serialiser and a
    deserialiser that agree on it. *)
Definition full_checkpoint : Train.checkpoint :=
  <["state_dict" :=
      Train.PyDict {[ "model.encoder.weight" := Train.PyTensor [1%Z; 2%Z] ]}]>
    {[ "epoch" := Train.PyInt 3 ]}.

Definition demo_pickle (c : Train.checkpoint) : bytes := sample 3.

Definition full_unpickle (b : bytes) : option Train.checkpoint :=
  match b with
  | [_; _; _] => Some full_checkpoint
  | _ => demo_unpickle b
  end.

(** ** Vocabulary of the further properties *)

(** The character [c] does not occur in [s]. *)
Definition free_of (c : ascii) (s : string) : Prop :=
  ~ In c (list_ascii_of_string s).

(** Every run of a computation relates the world before to the world
    after by [R], whatever the outcome. *)
Definition respects {A} (R : World -> World -> Prop) (m : M A) : Prop :=
  forall w, R w (m w).2.

(** The file system stays well formed. *)
Definition stays_wf (w w' : World) : Prop := FS.wf (fs w) -> FS.wf (fs w').

(** Entries outside [touch] that are there stay as they are. *)
Definition keeps_outside (touch : Path -> Prop) (w w' : World) : Prop :=
  forall q nd, ~ touch q -> fs w !! q = Some nd -> fs w' !! q = Some nd.

(** Nothing is added to the trace. *)
Definition silent (w w' : World) : Prop := trace w' = trace w.

(** The file system is left as it is. *)
Definition reads_only (w w' : World) : Prop := fs w' = fs w.

(** The paths of the artifacts inside a directory. *)
Definition artifact_of (c q : Path) : Prop :=
  exists file, file ∈ files /\ q = c </> file.

(* ===================================================================== *)
(** * Paths: lexical facts                                                *)
(* ===================================================================== *)

Lemma files_plain file : In file files -> plain_name file.
Proof.
  unfold files; simpl; intros H.
  repeat (destruct H as [<- | H]; [reflexivity|]). contradiction.
Qed.

Lemma files_NoDup : NoDup files.
Proof.
  unfold files. repeat (apply NoDup_cons_2; [compute_done|]). apply NoDup_nil_2.
Qed.

Lemma truediv_plain c s :
  plain_name s -> c </> s = mkPath (anchor c) (parts c ++ [s]).
Proof. unfold truediv, plain_name; intros ->; reflexivity. Qed.

Lemma parent_truediv c s : plain_name s -> parent (c </> s) = c.
Proof.
  intros H; rewrite (truediv_plain _ _ H); unfold parent; simpl.
  rewrite removelast_last; destruct c; reflexivity.
Qed.

Lemma parts_truediv c s : plain_name s -> parts (c </> s) <> [].
Proof.
  intros H; rewrite (truediv_plain _ _ H); simpl.
  destruct (parts c); discriminate.
Qed.

Lemma truediv_ne_self c s : plain_name s -> c </> s <> c.
Proof.
  intros H E. apply (f_equal (fun p => length (parts p))) in E.
  rewrite (truediv_plain _ _ H) in E; simpl in E.
  rewrite length_app in E; simpl in E; lia.
Qed.

Lemma truediv_inj c s t :
  plain_name s -> plain_name t -> c </> s = c </> t -> s = t.
Proof.
  intros Hs Ht; rewrite (truediv_plain _ _ Hs), (truediv_plain _ _ Ht).
  intros [= E]. by apply app_inv_head in E as [= ->].
Qed.

Lemma child_truediv c s : plain_name s -> FS.is_child c (c </> s).
Proof.
  intros H; split; [by apply parts_truediv | by apply parent_truediv].
Qed.

(* ===================================================================== *)
(** * Running the calls                                                   *)
(* ===================================================================== *)

Ltac run := unfold bind, ret, raise, catch, log, get_fs, put_fs; simpl.

Lemma for_each_app {A} (l1 l2 : list A) body w :
  for_each (l1 ++ l2) body w =
  match for_each l1 body w with
  | (Ok _, w') => for_each l2 body w'
  | (Raise e, w') => (Raise e, w')
  end.
Proof.
  revert w; induction l1 as [|x l1 IH]; intros w; simpl; [reflexivity|].
  unfold bind. destruct (body x w) as [[[]|e] w1]; [apply IH|reflexivity].
Qed.

Lemma fold_chunks (cs : list bytes) (bar : tqdm) (acc : bytes) :
  (fold_left (fun st chunk =>
     (tqdm_update st.1 (length chunk), (st.2 ++ chunk)%list)) cs (bar, acc)).2
  = (acc ++ concat cs)%list.
Proof.
  revert bar acc; induction cs as [|c cs IH]; intros bar acc; simpl.
  - by rewrite app_nil_r.
  - rewrite IH. by rewrite <- app_assoc.
Qed.

Section RunResolver.

Context (environ : gmap string string) (hub_dir : string)
        (server : string -> Reply).

Lemma download_run file name w :
  download_as_bytes_with_progress server (download_url file) name w =
  (match fetch_error server file with
   | Some e => Raise (RequestError e)
   | None => Ok (payload server file)
   end, logged w [EvGet (download_url file)]).
Proof.
  unfold download_as_bytes_with_progress, requests_get, iter_content,
    fetch_error, payload, logged.
  run. destruct (server (download_url file)) as [e|r]; simpl; [reflexivity|].
  destruct (broken r); simpl; [reflexivity|].
  by rewrite fold_chunks.
Qed.

Lemma write_run c s data w :
  plain_name s ->
  FS.is_dir (fs w) c = true ->
  FS.is_dir (fs w) (c </> s) = false ->
  Path_write_bytes (c </> s) data w =
  (Ok tt, mkWorld (<[c </> s := File data]> (fs w))
                  (trace w ++ [EvWrite (c </> s) data])).
Proof.
  intros Hs Hc Ht. unfold Path_write_bytes. run.
  unfold FS.is_dir in *. rewrite (parent_truediv _ _ Hs).
  destruct (FS.node_at (fs w) (c </> s)) as [[]|]; try done.
  destruct (FS.node_at (fs w) c) as [[]|]; done.
Qed.

(** One turn of the loop whose download fails. *)
Lemma turn_fails c file e w :
  fetch_error server file = Some e ->
  download_file server c file w =
  (Raise (RequestError e), logged w [EvGet (download_url file)]).
Proof.
  intros He. unfold download_file, bind. by rewrite download_run, He.
Qed.

(** One turn of the loop whose download succeeds. *)
Lemma turn_succeeds c file w :
  plain_name file ->
  fetch_error server file = None ->
  FS.is_dir (fs w) c = true ->
  FS.is_dir (fs w) (c </> file) = false ->
  download_file server c file w =
  (Ok tt, mkWorld (store server c (fs w) file)
                  (trace w ++ turn_events server c file)).
Proof.
  intros Hs He Hc Ht. unfold download_file, bind, store, turn_events.
  rewrite download_run, He.
  destruct (15 <? length (payload server file))%nat.
  - rewrite write_run by done. simpl. by rewrite <- app_assoc.
  - reflexivity.
Qed.

Lemma node_at_insert f k v q :
  parts q <> [] ->
  FS.node_at (<[k := v]> f) q =
  if decide (k = q) then Some v else FS.node_at f q.
Proof.
  intros Hq. unfold FS.node_at. destruct (parts q); [done|].
  apply lookup_insert.
Qed.

Lemma store_keeps_dir c f file :
  plain_name file ->
  FS.is_dir (store server c f file) c = FS.is_dir f c.
Proof.
  intros Hs. unfold store. destruct (15 <? _)%nat; [|done].
  unfold FS.is_dir, FS.node_at. destruct (parts c) eqn:Ec; [done|].
  rewrite lookup_insert_ne; [done|]. by apply truediv_ne_self.
Qed.

Lemma store_not_dir c f file g :
  plain_name g ->
  FS.is_dir f (c </> g) = false ->
  FS.is_dir (store server c f file) (c </> g) = false.
Proof.
  intros Hg Hn. unfold store. destruct (15 <? _)%nat; [|done].
  unfold FS.is_dir. rewrite node_at_insert by by apply parts_truediv.
  by case_decide.
Qed.

(** A pass in which every download succeeds: what ends up on disk and
    in the trace. *)
Lemma pass_succeeds c fl w :
  Forall plain_name fl ->
  Forall (fun g => fetch_error server g = None) fl ->
  FS.is_dir (fs w) c = true ->
  Forall (fun g => FS.is_dir (fs w) (c </> g) = false) fl ->
  for_each fl (download_file server c) w =
  (Ok tt, mkWorld (foldl (store server c) (fs w) fl)
                  (trace w ++ concat (turn_events server c <$> fl))).
Proof.
  revert w; induction fl as [|g fl IH]; intros w Hp He Hc Hn; simpl.
  - unfold ret. rewrite app_nil_r. by destruct w.
  - apply Forall_cons in Hp as [Hg Hp]. apply Forall_cons in He as [Heg He].
    apply Forall_cons in Hn as [Hng Hn].
    unfold bind. rewrite turn_succeeds by done.
    rewrite IH; simpl; try done.
    + by rewrite <- app_assoc.
    + by rewrite store_keeps_dir.
    + rewrite Forall_forall in Hp, Hn. apply Forall_forall; intros x Hx.
      apply store_not_dir; auto.
Qed.

Lemma download_checkpoint_run c w :
  download_checkpoint server c w =
  for_each files (download_file server c) (logged w [banner c]).
Proof. reflexivity. Qed.

(** What a completed pass leaves on disk. *)
Lemma stored_untouched c fl f q :
  (forall g, g ∈ fl -> (15 < length (payload server g))%nat ->
     q <> c </> g) ->
  foldl (store server c) f fl !! q = f !! q.
Proof.
  revert f; induction fl as [|x fl IH]; intros f H; simpl; [done|].
  rewrite IH by (intros g Hg; apply H; by right).
  unfold store. destruct (15 <? _)%nat eqn:E; [|done].
  apply Nat.ltb_lt in E. rewrite lookup_insert_ne; [done|].
  intros Heq. eapply H; [by left|done|done].
Qed.

Lemma stored_written c fl f g :
  Forall plain_name fl -> plain_name g ->
  (15 < length (payload server g))%nat ->
  g ∈ fl \/ f !! (c </> g) = Some (File (payload server g)) ->
  foldl (store server c) f fl !! (c </> g) = Some (File (payload server g)).
Proof.
  intros Hp Hg Hbig. revert f; induction Hp as [|x fl Hx Hp IH];
    intros f H; simpl.
  - destruct H as [H|H]; [by apply elem_of_nil in H|done].
  - apply IH. unfold store.
    destruct (decide (x = g)) as [->|Hne].
    + right. apply Nat.ltb_lt in Hbig. rewrite Hbig. apply lookup_insert_eq.
    + destruct H as [H|H].
      * apply elem_of_cons in H as [->|H]; [done|by left].
      * right. destruct (15 <? _)%nat; [|done].
        rewrite lookup_insert_ne; [done|].
        intros E. by apply truediv_inj in E.
Qed.

Lemma requests_app e1 e2 :
  requests (e1 ++ e2) = (requests e1 ++ requests e2)%list.
Proof. apply omap_app. Qed.

Lemma requests_turns c fl :
  requests (concat (turn_events server c <$> fl)) = download_url <$> fl.
Proof.
  induction fl as [|g fl IH]; [done|].
  rewrite !fmap_cons. cbn [concat]. rewrite requests_app, IH.
  unfold turn_events. by destruct (15 <? _)%nat.
Qed.

End RunResolver.

(* ===================================================================== *)
(** * Making directories                                                  *)
(* ===================================================================== *)

Lemma path_rev_eta (p : Path) : mkPath (anchor p) (rev (rev (parts p))) = p.
Proof. rewrite rev_involutive. by destruct p. Qed.

Lemma parent_rev a x up : parent (mkPath a (rev (x :: up))) = mkPath a (rev up).
Proof. unfold parent; simpl. by rewrite removelast_last. Qed.

Lemma up_from_shorter a rparts q :
  q ∈ FS.up_from a rparts -> length (parts q) < length rparts.
Proof.
  induction rparts as [|x up IH]; simpl; intros H.
  - by apply elem_of_nil in H.
  - apply elem_of_cons in H as [->|H].
    + simpl. rewrite length_rev. lia.
    + apply IH in H. lia.
Qed.

Lemma with_dirs_lookup a rparts f q :
  with_dirs a rparts f !! q =
  if decide (parts q <> [] /\
             q ∈ mkPath a (rev rparts) :: FS.up_from a rparts)
  then Some Dir else f !! q.
Proof.
  induction rparts as [|x up IH].
  - simpl. case_decide as H; [|done]. destruct H as [Hq H].
    apply list_elem_of_singleton in H. subst q. done.
  - cbn [with_dirs FS.up_from]. rewrite lookup_insert.
    destruct (decide (mkPath a (rev (x :: up)) = q)) as [<-|E].
    + rewrite decide_True; [done|]. split; [|by left].
      simpl. destruct (rev up); discriminate.
    + rewrite IH. repeat case_decide; try done.
      * exfalso. destruct H as [Hq H]. apply H0. split; [done|by right].
      * exfalso. destruct H0 as [Hq H0]. apply elem_of_cons in H0 as [->|H0];
          [done|]. apply H. by split.
Qed.
Lemma with_dirs_id a rparts f :
  FS.wf f ->
  FS.is_dir f (mkPath a (rev rparts)) = true ->
  with_dirs a rparts f = f.
Proof.
  intros Hwf. induction rparts as [|x up IH]; intros Hd; [done|].
  cbn [with_dirs]. unfold FS.is_dir, FS.node_at in Hd.
  cbn [parts] in Hd. destruct (rev (x :: up)) eqn:Er.
  { simpl in Er. by destruct (rev up). }
  rewrite <- Er in *. destruct (f !! _) as [[]|] eqn:El; try done.
  destruct (Hwf _ _ El) as [_ Hpar]. rewrite parent_rev in Hpar.
  rewrite IH by done. by apply insert_id.
Qed.

Lemma os_mkdir_exists p w :
  FS.exists_ (fs w) p = true -> os_mkdir p w = (Raise FileExistsError, w).
Proof.
  unfold os_mkdir, FS.exists_. run. by destruct (FS.node_at (fs w) p).
Qed.

Lemma os_mkdir_fresh p w :
  FS.node_at (fs w) p = None ->
  FS.is_dir (fs w) (parent p) = true ->
  os_mkdir p w = (Ok tt, mkWorld (<[p := Dir]> (fs w)) (trace w)).
Proof.
  unfold os_mkdir, FS.is_dir. run. intros ->.
  by destruct (FS.node_at (fs w) (parent p)) as [[]|].
Qed.

Lemma os_mkdir_orphan p w :
  FS.node_at (fs w) p = None ->
  FS.node_at (fs w) (parent p) = None ->
  Forall (fun q => FS.is_file (fs w) q = false) (FS.ancestors p) ->
  os_mkdir p w = (Raise FileNotFoundError, w).
Proof.
  unfold os_mkdir. run. intros -> -> Hfree. unfold FS.lookup_error.
  replace (existsb _ _) with false; [done|].
  symmetry. apply not_true_is_false. intros H.
  apply existsb_exists in H as (q & Hq & Hf).
  rewrite Forall_forall in Hfree. apply list_elem_of_In in Hq.
  rewrite (Hfree q Hq) in Hf. done.
Qed.

Lemma is_dir_exists f p : FS.is_dir f p = true -> FS.exists_ f p = true.
Proof. unfold FS.is_dir, FS.exists_. by destruct (FS.node_at f p). Qed.

Lemma mkdir_parents_existing a rparts w :
  FS.is_dir (fs w) (mkPath a (rev rparts)) = true ->
  mkdir_parents a rparts true w = (Ok tt, w).
Proof.
  intros Hd. pose proof (is_dir_exists _ _ Hd) as He.
  destruct rparts; cbn [mkdir_parents]; unfold catch;
    rewrite (os_mkdir_exists _ _ He); cbv beta iota;
    unfold is_OSError, Path_is_dir, bind, get_fs, ret; cbv beta iota;
    by rewrite Hd.
Qed.

(** [mkdir(parents=True, exist_ok=True)] on a directory that is there. *)
Lemma mkdir_existing c w :
  FS.is_dir (fs w) c = true ->
  Path_mkdir c true true w = (Ok tt, logged w [EvMkdir c]).
Proof.
  intros Hd. unfold Path_mkdir, bind, log.
  apply mkdir_parents_existing. by rewrite path_rev_eta.
Qed.
Lemma node_at_with_dirs a rparts f q :
  FS.node_at (with_dirs a rparts f) q =
  if decide (q ∈ mkPath a (rev rparts) :: FS.up_from a rparts)
  then Some Dir else FS.node_at f q.
Proof.
  unfold FS.node_at. destruct (parts q) eqn:Eq; [by case_decide|].
  rewrite with_dirs_lookup, Eq.
  destruct (decide (q ∈ _)) as [Hin|Hout].
  - by rewrite decide_True.
  - rewrite decide_False; [done|]. by intros [_ ?].
Qed.

Lemma mkdir_parents_makes a rparts f tr :
  FS.wf f ->
  Forall (fun q => FS.is_file f q = false)
         (mkPath a (rev rparts) :: FS.up_from a rparts) ->
  mkdir_parents a rparts true (mkWorld f tr) =
  (Ok tt, mkWorld (with_dirs a rparts f) tr).
Proof.
  intros Hwf. induction rparts as [|x up IH]; intros Hfree.
  { apply mkdir_parents_existing. done. }
  pose proof Hfree as Hfree0.
  apply Forall_cons in Hfree as [Hself Hup]. cbn [FS.up_from] in Hup.
  set (self := mkPath a (rev (x :: up))) in *.
  destruct (FS.node_at f self) as [[]|] eqn:Es.
  - unfold FS.is_file in Hself. by rewrite Es in Hself.
  - assert (Hd : FS.is_dir f self = true) by (unfold FS.is_dir; by rewrite Es).
    rewrite mkdir_parents_existing by done. by rewrite with_dirs_id.
  - pose proof (parent_rev a x up) as Hpar. fold self in Hpar.
    pose proof Hup as Hup0. apply Forall_cons in Hup as [Hp Hup].
    cbn [mkdir_parents]. fold self. unfold catch.
    destruct (FS.node_at f (mkPath a (rev up))) as [[]|] eqn:Ep.
    + unfold FS.is_file in Hp. by rewrite Ep in Hp.
    + assert (Hd : FS.is_dir f (mkPath a (rev up)) = true)
        by (unfold FS.is_dir; by rewrite Ep).
      rewrite os_mkdir_fresh; simpl; [|done|by rewrite Hpar].
      by rewrite with_dirs_id.
    + rewrite os_mkdir_orphan; simpl; [|done|by rewrite Hpar|].
      2:{ unfold FS.ancestors, self. cbn [anchor parts].
          by rewrite rev_involutive. }
      unfold bind. rewrite IH by done.
      unfold mkdir_leaf, catch. rewrite os_mkdir_fresh; simpl; [done| |].
      * rewrite node_at_with_dirs. rewrite decide_False; [done|].
        intros Hin. change (self ∈ FS.up_from a (x :: up)) in Hin.
        apply up_from_shorter in Hin. unfold self in Hin. simpl in Hin.
        rewrite length_app, length_rev in Hin. simpl in Hin. lia.
      * rewrite Hpar. unfold FS.is_dir. rewrite node_at_with_dirs.
        rewrite decide_True; [done|by left].
Qed.

Lemma mkdir_makes c w :
  FS.wf (fs w) ->
  Forall (fun q => FS.is_file (fs w) q = false) (c :: FS.ancestors c) ->
  Path_mkdir c true true w =
  (Ok tt, mkWorld (with_dirs (anchor c) (rev (parts c)) (fs w))
                  (trace w ++ [EvMkdir c])).
Proof.
  intros Hwf Hfree. unfold Path_mkdir, bind, log.
  apply mkdir_parents_makes; [done|]. by rewrite path_rev_eta.
Qed.

(* ===================================================================== *)
(** * The trace only grows                                                *)
(* ===================================================================== *)

Lemma appends_ret {A} (a : A) : appends (ret a).
Proof. intros w. exists []. simpl. by rewrite app_nil_r. Qed.

Lemma appends_raise {A} e : appends (@raise A e).
Proof. intros w. exists []. simpl. by rewrite app_nil_r. Qed.

Lemma appends_log e : appends (log e).
Proof. intros w. by exists [e]. Qed.

Lemma appends_get_fs : appends get_fs.
Proof. intros w. exists []. simpl. by rewrite app_nil_r. Qed.

Lemma appends_put_fs f : appends (put_fs f).
Proof. intros w. exists []. simpl. by rewrite app_nil_r. Qed.

Lemma appends_bind {A B} (m : M A) (k : A -> M B) :
  appends m -> (forall a, appends (k a)) -> appends (bind m k).
Proof.
  intros Hm Hk w. unfold bind. destruct (Hm w) as [e1 H1].
  destruct (m w) as [[a|e] w1]; simpl in *.
  - destruct (Hk a w1) as [e2 H2]. exists (e1 ++ e2)%list.
    by rewrite H2, H1, <- app_assoc.
  - by exists e1.
Qed.

Lemma appends_catch {A} (m : M A) (h : Exn -> M A) :
  appends m -> (forall e, appends (h e)) -> appends (catch m h).
Proof.
  intros Hm Hh w. unfold catch. destruct (Hm w) as [e1 H1].
  destruct (m w) as [[a|e] w1]; simpl in *.
  - by exists e1.
  - destruct (Hh e w1) as [e2 H2]. exists (e1 ++ e2)%list.
    by rewrite H2, H1, <- app_assoc.
Qed.

Create HintDb appends.
#[export] Hint Resolve appends_ret appends_raise appends_log appends_get_fs
  appends_put_fs : appends.

Ltac appends_step :=
  first [ apply appends_bind; [|intros ?]
        | apply appends_catch; [|intros ?]
        | solve [auto with appends]
        | match goal with
          | |- appends (match ?x with _ => _ end) => destruct x
          end
        | match goal with |- appends (if ?x then _ else _) => destruct x end ].

Lemma appends_os_mkdir p : appends (os_mkdir p).
Proof. unfold os_mkdir. repeat appends_step. Qed.

Lemma appends_is_dir p : appends (Path_is_dir p).
Proof. unfold Path_is_dir. repeat appends_step. Qed.

#[export] Hint Resolve appends_os_mkdir appends_is_dir : appends.

Lemma appends_mkdir_leaf p ok : appends (mkdir_leaf p ok).
Proof. unfold mkdir_leaf. repeat appends_step. Qed.

#[export] Hint Resolve appends_mkdir_leaf : appends.

Lemma appends_mkdir_parents a rparts ok : appends (mkdir_parents a rparts ok).
Proof.
  revert ok; induction rparts as [|x up IH]; intros ok; cbn [mkdir_parents];
    repeat appends_step.
Qed.

#[export] Hint Resolve appends_mkdir_parents : appends.

Lemma appends_write p d : appends (Path_write_bytes p d).
Proof. unfold Path_write_bytes. repeat appends_step. Qed.

#[export] Hint Resolve appends_write : appends.

Lemma appends_for_each {A} (l : list A) body :
  (forall x, appends (body x)) -> appends (for_each l body).
Proof.
  intros Hb. induction l; simpl; [auto with appends|].
  apply appends_bind; auto.
Qed.

Lemma appends_download_checkpoint server c :
  appends (download_checkpoint server c).
Proof.
  unfold download_checkpoint, print. apply appends_bind; [auto with appends|].
  intros _. apply appends_for_each. intros file.
  unfold download_file, download_as_bytes_with_progress, requests_get,
    iter_content.
  repeat appends_step.
Qed.

Lemma bind_assoc {A B C} (m : M A) (k : A -> M B) (h : B -> M C) w :
  bind (bind m k) h w = bind m (fun a => bind (k a) h) w.
Proof. unfold bind. by destruct (m w) as [[a|e] w1]. Qed.

(** A fetch pass shows in the trace, whatever its outcome: it starts by
    calling [mkdir] on its target. *)
Lemma fetch_pass_starts server c w :
  exists evs,
    trace (fetch_pass server c w).2 = (trace w ++ EvMkdir c :: evs)%list.
Proof.
  assert (H : appends (mkdir_parents (anchor c) (rev (parts c)) true ;;
                       download_checkpoint server c ;; ret c)).
  { apply appends_bind; [auto with appends|]. intros _.
    apply appends_bind; [apply appends_download_checkpoint|].
    intros _; auto with appends. }
  destruct (H (logged w [EvMkdir c])) as [evs Hevs]. exists evs.
  unfold fetch_pass, Path_mkdir. rewrite bind_assoc.
  unfold bind at 1. unfold log at 1. cbv beta iota.
  unfold logged in Hevs. rewrite Hevs. simpl. by rewrite <- app_assoc.
Qed.

(* ===================================================================== *)
(** * [get_checkpoint], step by step                                      *)
(* ===================================================================== *)

Lemma listdir_length f d : length (FS.listdir f d) = size (FS.children f d).
Proof. unfold FS.listdir. by rewrite length_fmap, length_map_to_list. Qed.

Lemma is_file_exists f p : FS.is_file f p = true -> FS.exists_ f p = true.
Proof. unfold FS.is_file, FS.exists_. by destruct (FS.node_at f p). Qed.

Lemma is_dir_not_file f p : FS.is_dir f p = true -> FS.is_file f p = false.
Proof. unfold FS.is_file, FS.is_dir. by destruct (FS.node_at f p) as [[]|]. Qed.

Lemma resolved_file f c : FS.is_file f c = true -> resolved f c = parent c.
Proof.
  intros H. unfold resolved. by rewrite H, (is_file_exists _ _ H).
Qed.

Lemma resolved_other f c : FS.is_file f c = false -> resolved f c = c.
Proof. intros H. unfold resolved. by rewrite H, andb_false_r. Qed.

(** In a well-formed file system a regular file sits in a directory. *)
Lemma wf_parent_dir f c :
  FS.wf f -> FS.is_file f c = true -> FS.is_dir f (parent c) = true.
Proof.
  intros Hwf. unfold FS.is_file, FS.node_at.
  destruct (parts c) eqn:E; [done|].
  destruct (f !! c) as [[]|] eqn:El; try done. intros _.
  by destruct (Hwf _ _ El).
Qed.

Lemma resolved_not_file f c :
  FS.wf f -> FS.is_file f (resolved f c) = false.
Proof.
  intros Hwf. destruct (FS.is_file f c) eqn:E.
  - rewrite resolved_file by done. apply is_dir_not_file.
    by apply wf_parent_dir.
  - by rewrite resolved_other.
Qed.

Section RunGetCheckpoint.

Context (environ : gmap string string) (hub_dir : string)
        (server : string -> Reply).

Lemma fetch_pass_run c w :
  fetch_pass server c w =
  match (Path_mkdir c true true ;; download_checkpoint server c) w with
  | (Ok _, w') => (Ok c, w')
  | (Raise e, w') => (Raise e, w')
  end.
Proof.
  unfold fetch_pass. unfold bind.
  destruct (Path_mkdir c true true w) as [[[]|e] w1]; [|done].
  by destruct (download_checkpoint server c w1) as [[[]|e] w2].
Qed.

Lemma bind_ok {A B} (m : M A) (k : A -> M B) w a w' :
  m w = (Ok a, w') -> bind m k w = k a w'.
Proof. unfold bind. by intros ->. Qed.

Lemma bind_raise {A B} (m : M A) (k : A -> M B) w e w' :
  m w = (Raise e, w') -> bind m k w = (Raise e, w').
Proof. unfold bind. by intros ->. Qed.

(** The test of line 64, with downloading enabled. *)
Lemma incomplete_run c w :
  (e <- Path_exists c ;;
   if negb e then ret true
   else l <- os_listdir c ;; ret (length l <? 5)%nat) w =
  match FS.node_at (fs w) c with
  | None => (Ok true, w)
  | Some Dir => (Ok (length (FS.listdir (fs w) c) <? 5)%nat, w)
  | Some (File _) => (Raise NotADirectoryError, w)
  end.
Proof.
  unfold Path_exists, os_listdir, bind, get_fs, ret, raise, FS.exists_.
  destruct (FS.node_at (fs w) c) as [[]|] eqn:E; cbn; by rewrite ?E.
Qed.

Lemma get_checkpoint_run cp dl w :
  get_checkpoint environ hub_dir server cp dl w =
  let c := resolved (fs w) (initial_checkpoint environ hub_dir cp) in
  if dl then
    if FS.exists_ (fs w) c then
      if FS.is_file (fs w) c then (Raise NotADirectoryError, w)
      else if (length (FS.listdir (fs w) c) <? 5)%nat
           then fetch_pass server c w
           else (Ok c, w)
    else fetch_pass server c w
  else (Ok c, w).
Proof.
  cbv zeta. unfold get_checkpoint.
  set (c0 := initial_checkpoint environ hub_dir cp).
  rewrite (bind_ok _ _ w (FS.exists_ (fs w) c0) w) by done.
  rewrite (bind_ok _ _ w (FS.exists_ (fs w) c0 && FS.is_file (fs w) c0) w)
    by by destruct (FS.exists_ (fs w) c0).
  fold (resolved (fs w) c0). set (c := resolved (fs w) c0).
  destruct dl; [|done].
  unfold fetch_pass, FS.exists_, FS.is_file.
  destruct (FS.node_at (fs w) c) as [[]|] eqn:En.
  - rewrite (bind_raise _ _ w NotADirectoryError w); [done|].
    by rewrite incomplete_run, En.
  - rewrite (bind_ok _ _ w (length (FS.listdir (fs w) c) <? 5)%nat w)
      by by rewrite incomplete_run, En.
    destruct (length _ <? 5)%nat; [|done].
    by rewrite bind_assoc.
  - rewrite (bind_ok _ _ w true w) by by rewrite incomplete_run, En.
    by rewrite bind_assoc.
Qed.

(** On a well-formed file system, with downloading enabled. *)
Lemma get_checkpoint_download cp w :
  FS.wf (fs w) ->
  get_checkpoint environ hub_dir server cp true w =
  let c := resolved (fs w) (initial_checkpoint environ hub_dir cp) in
  if negb (FS.exists_ (fs w) c) || (length (FS.listdir (fs w) c) <? 5)%nat
  then fetch_pass server c w
  else (Ok c, w).
Proof.
  intros Hwf. rewrite get_checkpoint_run. cbv zeta.
  rewrite resolved_not_file by done.
  by destruct (FS.exists_ _ _).
Qed.

End RunGetCheckpoint.

(* ===================================================================== *)
(** * The design contract                                                 *)
(* ===================================================================== *)

Lemma fetch_pass_returns server c w p :
  (fetch_pass server c w).1 = Ok p -> p = c.
Proof.
  rewrite fetch_pass_run.
  destruct ((Path_mkdir c true true;; download_checkpoint server c) w)
    as [[[]|e] w1]; simpl; congruence.
Qed.

Lemma not_self_extension {A} (l : list A) x evs : l <> (l ++ x :: evs)%list.
Proof.
  intros H. apply (f_equal length) in H. rewrite length_app in H.
  simpl in H. lia.
Qed.

(** C4, as the code has it. The target of [get_checkpoint] is decided in
    priority order: the explicit argument when it is supplied and truthy
    (neither [None] nor the empty string), otherwise the value of
    [NOUGAT_CHECKPOINT] when the variable is set, otherwise
    [torch.hub.get_dir()] suffixed with ["/nougat"]; that path, with an
    existing regular file replaced by its parent, is what the call returns
    when downloading is disabled. *)
Theorem target_priority environ hub_dir server cp w :
  (forall a, cp = Some a -> truthy cp = true ->
     initial_checkpoint environ hub_dir cp = Path_new a) /\
  (forall v, truthy cp = false -> environ !! "NOUGAT_CHECKPOINT" = Some v ->
     initial_checkpoint environ hub_dir cp = of_string v) /\
  (truthy cp = false -> environ !! "NOUGAT_CHECKPOINT" = None ->
     initial_checkpoint environ hub_dir cp
     = of_string (hub_dir ++ "/nougat")) /\
  get_checkpoint environ hub_dir server cp false w =
    (Ok (resolved (fs w) (initial_checkpoint environ hub_dir cp)), w).
Proof.
  unfold initial_checkpoint, py_or, environ_get. repeat split.
  - intros a -> Ht. by rewrite Ht.
  - intros v Ht Hv. rewrite Hv. destruct cp; by rewrite ?Ht.
  - intros Ht Hv. rewrite Hv. destruct cp; by rewrite ?Ht.
  - by rewrite get_checkpoint_run.
Qed.

Lemma target_priority_witness :
  initial_checkpoint demo_environ demo_hub (Some (PStr "/data/ckpt"))
    = of_string "/data/ckpt" /\
  initial_checkpoint demo_environ demo_hub None = of_string "/env/ckpt" /\
  initial_checkpoint ∅ demo_hub None
    = of_string "/home/u/.cache/torch/hub/nougat".
Proof.
  split; [|split].
  - apply (proj1 (target_priority demo_environ demo_hub (steady_server 100)
                    (Some (PStr "/data/ckpt")) (mkWorld ∅ []))
             (PStr "/data/ckpt")); reflexivity.
  - apply (proj1 (proj2 (target_priority demo_environ demo_hub
                           (steady_server 100) None (mkWorld ∅ [])))
             "/env/ckpt"); reflexivity.
  - apply (proj1 (proj2 (proj2 (target_priority ∅ demo_hub
                                  (steady_server 100) None (mkWorld ∅ []))))
          ); reflexivity.
Defined.

(** C4 as stated fails: an explicit argument that is the empty string is
    supplied, yet the environment variable decides. *)
Lemma explicit_empty_string_loses :
  initial_checkpoint demo_environ demo_hub (Some (PStr ""))
    = of_string "/env/ckpt" /\
  initial_checkpoint demo_environ demo_hub (Some (PStr ""))
    <> Path_new (PStr "").
Proof. split; [reflexivity|]. vm_compute. discriminate. Qed.

Section ThresholdContract.

Context (server : string -> Reply).

Lemma node_at_stored c fl f q :
  (forall g, g ∈ fl -> q <> c </> g) ->
  FS.node_at (foldl (store server c) f fl) q = FS.node_at f q.
Proof.
  intros H. unfold FS.node_at. destruct (parts q); [done|].
  apply stored_untouched. intros g Hg _. by apply H.
Qed.

(** A fetch pass on a directory that exists, every download succeeding. *)
Lemma fetch_pass_existing c w :
  FS.is_dir (fs w) c = true ->
  Forall (fun g => FS.is_dir (fs w) (c </> g) = false) files ->
  Forall (fun g => fetch_error server g = None) files ->
  fetch_pass server c w =
  (Ok c, mkWorld (foldl (store server c) (fs w) files)
           (trace w ++ EvMkdir c :: banner c ::
              concat (turn_events server c <$> files))).
Proof.
  intros Hd Hn He. rewrite fetch_pass_run.
  rewrite (bind_ok _ _ w tt (logged w [EvMkdir c]))
    by by apply mkdir_existing.
  rewrite download_checkpoint_run.
  rewrite pass_succeeds; try done.
  - simpl. by rewrite <- !app_assoc.
  - apply Forall_forall. intros g Hg. apply files_plain.
    by apply list_elem_of_In.
Qed.

(** C2. Each turn of the loop of a fetch pass downloads one artifact;
    when the download succeeds, a payload of at most 15 bytes is dropped
    without any write and without an error, and a longer payload is
    handed verbatim to [write_bytes] under the artifact's name inside the
    target directory, which stores it there whenever the target is a
    directory and the name is not taken by a directory. *)
Theorem payload_threshold c file w :
  file ∈ files ->
  fetch_error server file = None ->
  download_checkpoint server c w
    = for_each files (download_file server c) (logged w [banner c]) /\
  (length (payload server file) <= 15 ->
     download_file server c file w
     = (Ok tt, logged w [EvGet (download_url file)])) /\
  (15 < length (payload server file) ->
     download_file server c file w
     = Path_write_bytes (c </> file) (payload server file)
         (logged w [EvGet (download_url file)]) /\
     (FS.is_dir (fs w) c = true ->
      FS.is_dir (fs w) (c </> file) = false ->
      download_file server c file w
      = (Ok tt,
         mkWorld (<[c </> file := File (payload server file)]> (fs w))
                 (trace w ++ [EvGet (download_url file);
                              EvWrite (c </> file) (payload server file)])))).
Proof.
  intros Hin He. split; [reflexivity|].
  assert (Hrun : download_file server c file w =
    (if (15 <? length (payload server file))%nat
     then Path_write_bytes (c </> file) (payload server file)
     else ret tt) (logged w [EvGet (download_url file)])).
  { unfold download_file. unfold bind. by rewrite download_run, He. }
  split.
  - intros Hsmall. rewrite Hrun.
    by replace (15 <? _)%nat with false by (symmetry; apply Nat.ltb_ge; lia).
  - intros Hbig. rewrite Hrun.
    replace (15 <? _)%nat with true by (symmetry; apply Nat.ltb_lt; lia).
    split; [done|]. intros Hd Hn.
    rewrite write_run; try done.
    + simpl. by rewrite <- app_assoc.
    + apply files_plain. by apply list_elem_of_In.
Qed.

End ThresholdContract.

Lemma payload_threshold_witness :
  download_file not_found_server demo_dir "config.json"
    (mkWorld empty_dir_fs [])
  = (Ok tt, mkWorld empty_dir_fs [EvGet (download_url "config.json")]) /\
  download_file (steady_server 100) demo_dir "config.json"
    (mkWorld empty_dir_fs [])
  = (Ok tt,
     mkWorld (<[demo_dir </> "config.json" := File (sample 100)]> empty_dir_fs)
       [EvGet (download_url "config.json");
        EvWrite (demo_dir </> "config.json") (sample 100)]).
Proof.
  split.
  - apply (proj1 (proj2 (payload_threshold not_found_server demo_dir
                           "config.json" (mkWorld empty_dir_fs [])
                           ltac:(by left) eq_refl))).
    vm_compute. lia.
  - apply (proj2 (proj2 (payload_threshold (steady_server 100) demo_dir
                           "config.json" (mkWorld empty_dir_fs [])
                           ltac:(by left) eq_refl))).
    + vm_compute. lia.
    + reflexivity.
    + reflexivity.
Defined.

Section RefetchContract.

Context (environ : gmap string string) (hub_dir : string)
        (server : string -> Reply).

Lemma files_all_plain : Forall plain_name files.
Proof.
  apply Forall_forall. intros g Hg. apply files_plain.
  by apply list_elem_of_In.
Qed.

Lemma is_dir_resolved f c : FS.is_dir f c = true -> resolved f c = c.
Proof. intros H. apply resolved_other. by apply is_dir_not_file. Qed.


End RefetchContract.


Section Listing.

Context (server : string -> Reply).

Lemma name_truediv c g : plain_name g -> name (c </> g) = g.
Proof.
  intros H. rewrite (truediv_plain _ _ H). unfold name. simpl.
  apply List.last_last.
Qed.

Lemma children_store c f file :
  plain_name file ->
  FS.children (store server c f file) c
  = store server c (FS.children f c) file.
Proof.
  intros Hp. unfold store, FS.children. destruct (15 <? _)%nat; [|done].
  apply map_filter_insert_True. by apply child_truediv.
Qed.

Lemma children_stored c fl f :
  Forall plain_name fl ->
  FS.children (foldl (store server c) f fl) c
  = foldl (store server c) (FS.children f c) fl.
Proof.
  intros Hp. revert f. induction Hp as [|g fl Hg Hp IH]; intros f; [done|].
  simpl. by rewrite IH, children_store.
Qed.

(** Storing distinct long payloads into nothing lists exactly them. *)
Lemma stored_listing c fl :
  NoDup fl -> Forall plain_name fl ->
  Forall (fun g => 15 < length (payload server g)) fl ->
  map_to_list (foldl (store server c) ∅ fl)
  ≡ₚ (fun g => (c </> g, File (payload server g))) <$> fl.
Proof.
  induction fl as [|x fl IH] using rev_ind; intros Hnd Hp Hbig.
  { simpl. by rewrite map_to_list_empty. }
  apply NoDup_app in Hnd as (Hnd & Hx & _).
  apply Forall_app in Hp as [Hp Hxp]. apply Forall_app in Hbig as [Hbig Hxb].
  apply Forall_cons in Hxp as [Hxp _]. apply Forall_cons in Hxb as [Hxb _].
  rewrite foldl_app. simpl. unfold store at 1.
  apply Nat.ltb_lt in Hxb. rewrite Hxb.
  rewrite map_to_list_insert.
  - rewrite fmap_app. simpl. rewrite IH by done.
    by rewrite Permutation_cons_append.
  - rewrite stored_untouched; [done|]. intros g Hg _ Heq.
    rewrite Forall_forall in Hp.
    apply truediv_inj in Heq; auto. subst g.
    apply (Hx x); [done|]. by left.
Qed.

Lemma listing_empty c f g :
  plain_name g -> FS.listdir f c = [] -> f !! (c </> g) = None.
Proof.
  intros Hg. unfold FS.listdir. intros H. apply fmap_nil_inv in H.
  apply map_to_list_empty_iff in H.
  destruct (f !! (c </> g)) as [nd|] eqn:E; [|done].
  assert (FS.children f c !! (c </> g) = Some nd) as Hc.
  { apply map_lookup_filter_Some. split; [done|]. by apply child_truediv. }
  by rewrite H in Hc.
Qed.

Lemma listing_empty_children c f :
  FS.listdir f c = [] -> FS.children f c = ∅.
Proof.
  unfold FS.listdir. intros H. apply fmap_nil_inv in H.
  by apply map_to_list_empty_iff in H.
Qed.

(** After a pass into an empty directory whose payloads are all long, the
    directory lists the five artifacts. *)
Lemma stored_into_empty c f :
  FS.listdir f c = [] ->
  Forall (fun g => 15 < length (payload server g)) files ->
  FS.listdir (foldl (store server c) f files) c ≡ₚ files.
Proof.
  intros Hempty Hbig. unfold FS.listdir.
  rewrite (children_stored _ _ _ (files_all_plain)).
  rewrite (listing_empty_children _ _ Hempty).
  rewrite stored_listing; [|apply files_NoDup|apply files_all_plain|done].
  rewrite <- list_fmap_compose.
  replace ((fun kv : Path * Node => name kv.1)
           ∘ (fun g => (c </> g, File (payload server g))) <$> files)
    with (id <$> files); [by rewrite list_fmap_id|].
  apply Forall_fmap_ext_1. eapply Forall_impl; [apply files_all_plain|].
  intros g Hg. simpl. symmetry. by apply name_truediv.
Qed.

End Listing.

Section IdempotenceContract.

Context (environ : gmap string string) (hub_dir : string)
        (server : string -> Reply).

Lemma missing_not_dir f c g :
  plain_name g -> f !! (c </> g) = None -> FS.is_dir f (c </> g) = false.
Proof.
  intros Hg Hnone. unfold FS.is_dir, FS.node_at.
  pose proof (parts_truediv c g Hg). destruct (parts (c </> g)); [done|].
  by rewrite Hnone.
Qed.

Lemma stored_keeps_dir c fl f :
  Forall plain_name fl ->
  FS.is_dir (foldl (store server c) f fl) c = FS.is_dir f c.
Proof.
  intros Hp. unfold FS.is_dir. rewrite node_at_stored; [done|].
  intros g Hg Heq. rewrite Forall_forall in Hp.
  symmetry in Heq. by apply truediv_ne_self in Heq; auto.
Qed.

(** C8. Start from a target directory that exists and is empty. One call
    with downloading enabled, every download succeeding with a payload
    longer than 15 bytes, returns the directory and leaves in it the five
    artifacts, each holding what the server sent, and nothing else. A
    second call on the result, against any server and with downloading
    enabled or not, returns the same path and leaves the world as it is:
    it issues no request. *)
Theorem resolve_is_idempotent (server' : string -> Reply) cp download' w :
  let c := initial_checkpoint environ hub_dir cp in
  FS.is_dir (fs w) c = true ->
  FS.listdir (fs w) c = [] ->
  Forall (fun g => fetch_error server g = None) files ->
  Forall (fun g => 15 < length (payload server g)) files ->
  exists w1,
    get_checkpoint environ hub_dir server cp true w = (Ok c, w1) /\
    (forall file, file ∈ files ->
       fs w1 !! (c </> file) = Some (File (payload server file))) /\
    FS.listdir (fs w1) c ≡ₚ files /\
    get_checkpoint environ hub_dir server' cp download' w1 = (Ok c, w1).
Proof.
  intros c Hd Hempty He Hbig. pose proof files_all_plain as Hp.
  assert (Hn : Forall (fun g => FS.is_dir (fs w) (c </> g) = false) files).
  { rewrite Forall_forall in Hp. apply Forall_forall. intros g Hg.
    apply missing_not_dir; [auto|]. apply listing_empty; auto. }
  eexists. split; [|split; [|split]].
  - rewrite get_checkpoint_run. cbv zeta. fold c.
    rewrite (is_dir_resolved _ _ Hd), (is_dir_exists _ _ Hd),
      (is_dir_not_file _ _ Hd), Hempty. cbn [length Nat.ltb Nat.leb].
    by apply fetch_pass_existing.
  - intros file Hin. rewrite Forall_forall in Hp, Hbig. cbn [fs].
    apply stored_written; auto. by apply Forall_forall.
  - cbn [fs]. by apply stored_into_empty.
  - rewrite get_checkpoint_run. cbv zeta. fold c. cbn [fs].
    assert (Hd1 : FS.is_dir (foldl (store server c) (fs w) files) c = true)
      by by rewrite stored_keeps_dir.
    rewrite (is_dir_resolved _ _ Hd1), (is_dir_exists _ _ Hd1),
      (is_dir_not_file _ _ Hd1).
    rewrite (Permutation_length (stored_into_empty server c _ Hempty Hbig)).
    cbn. by destruct download'.
Qed.

End IdempotenceContract.

Lemma resolve_is_idempotent_witness :
  exists w1,
    get_checkpoint demo_environ demo_hub (steady_server 100)
      (Some (PStr "/data/ckpt")) true (mkWorld empty_dir_fs [])
    = (Ok demo_dir, w1) /\
    (forall file, file ∈ files ->
       fs w1 !! (demo_dir </> file) = Some (File (sample 100))) /\
    FS.listdir (fs w1) demo_dir ≡ₚ files /\
    get_checkpoint demo_environ demo_hub flaky_server
      (Some (PStr "/data/ckpt")) true w1
    = (Ok demo_dir, w1).
Proof.
  apply (resolve_is_idempotent demo_environ demo_hub (steady_server 100)
           flaky_server (Some (PStr "/data/ckpt")) true
           (mkWorld empty_dir_fs [])).
  - reflexivity.
  - vm_compute. reflexivity.
  - repeat constructor.
  - repeat constructor; vm_compute; lia.
Defined.

Section MissingDirectoryContract.

Context (environ : gmap string string) (hub_dir : string)
        (server : string -> Reply).

Lemma lineage_shorter c q :
  q ∈ c :: FS.ancestors c -> length (parts q) <= length (parts c).
Proof.
  intros H. apply elem_of_cons in H as [->|H]; [done|].
  apply up_from_shorter in H. rewrite length_rev in H. lia.
Qed.

Lemma truediv_not_in_lineage c g q :
  plain_name g -> q ∈ c :: FS.ancestors c -> q <> c </> g.
Proof.
  intros Hg Hq ->. apply lineage_shorter in Hq.
  rewrite (truediv_plain _ _ Hg) in Hq. simpl in Hq.
  rewrite length_app in Hq. simpl in Hq. lia.
Qed.

Lemma node_at_made c f q :
  FS.node_at (with_dirs (anchor c) (rev (parts c)) f) q =
  if decide (q ∈ c :: FS.ancestors c) then Some Dir else FS.node_at f q.
Proof.
  rewrite node_at_with_dirs. by rewrite path_rev_eta.
Qed.

(** Nothing sits below a path that does not exist. *)
Lemma wf_nothing_below f c g :
  FS.wf f -> plain_name g -> FS.exists_ f c = false ->
  f !! (c </> g) = None.
Proof.
  intros Hwf Hg Hmiss. destruct (f !! (c </> g)) eqn:E; [|done].
  destruct (Hwf _ _ E) as [_ Hd]. rewrite (parent_truediv _ _ Hg) in Hd.
  by rewrite (is_dir_exists _ _ Hd) in Hmiss.
Qed.

(** C3. On a well-formed file system where the target does not exist,
    no regular file stands in the way of creating it and every download
    succeeds, [get_checkpoint] with downloading enabled creates the
    directory and every missing ancestor, then requests exactly the five
    artifacts, in the order of the list, each at
    [BASE_URL/MODEL_TAG/filename], and returns the directory. *)
Theorem fetch_into_missing_directory cp w :
  let c := initial_checkpoint environ hub_dir cp in
  FS.wf (fs w) ->
  FS.exists_ (fs w) c = false ->
  Forall (fun q => FS.is_file (fs w) q = false) (FS.ancestors c) ->
  Forall (fun g => fetch_error server g = None) files ->
  exists w',
    get_checkpoint environ hub_dir server cp true w = (Ok c, w') /\
    FS.is_dir (fs w') c = true /\
    Forall (fun q => FS.is_dir (fs w') q = true) (FS.ancestors c) /\
    trace w' = (trace w ++ EvMkdir c :: banner c ::
                  concat (turn_events server c <$> files))%list /\
    requests (drop (length (trace w)) (trace w')) =
      [ BASE_URL ++ "/" ++ MODEL_TAG ++ "/config.json";
        BASE_URL ++ "/" ++ MODEL_TAG ++ "/pytorch_model.bin";
        BASE_URL ++ "/" ++ MODEL_TAG ++ "/special_tokens_map.json";
        BASE_URL ++ "/" ++ MODEL_TAG ++ "/tokenizer.json";
        BASE_URL ++ "/" ++ MODEL_TAG ++ "/tokenizer_config.json" ].
Proof.
  intros c Hwf Hmiss Hfree He. pose proof files_all_plain as Hp.
  assert (Hnf : FS.is_file (fs w) c = false).
  { destruct (FS.is_file (fs w) c) eqn:E; [|done].
    by rewrite (is_file_exists _ _ E) in Hmiss. }
  set (f1 := with_dirs (anchor c) (rev (parts c)) (fs w)).
  assert (Hd1 : FS.is_dir f1 c = true).
  { unfold FS.is_dir, f1. rewrite node_at_made.
    rewrite decide_True; [done|by left]. }
  assert (Hn1 : Forall (fun g => FS.is_dir f1 (c </> g) = false) files).
  { rewrite Forall_forall in Hp. apply Forall_forall. intros g Hg.
    unfold FS.is_dir, f1. rewrite node_at_made.
    rewrite decide_False.
    - fold (FS.is_dir (fs w) (c </> g)). apply missing_not_dir; [auto|].
      apply wf_nothing_below; auto.
    - intros Hin. by apply (truediv_not_in_lineage c g) in Hin; auto. }
  exists (mkWorld (foldl (store server c) f1 files)
            (trace w ++ EvMkdir c :: banner c ::
               concat (turn_events server c <$> files))).
  split; [|split; [|split; [|split]]].
  - rewrite get_checkpoint_run. cbv zeta. fold c.
    rewrite (resolved_other _ _ Hnf), Hmiss.
    rewrite fetch_pass_run.
    rewrite (bind_ok _ _ w tt (mkWorld f1 (trace w ++ [EvMkdir c]))).
    + rewrite download_checkpoint_run, pass_succeeds; try done.
      simpl. by rewrite <- !app_assoc.
    + apply mkdir_makes; [done|]. by apply Forall_cons.
  - cbn [fs]. by rewrite stored_keeps_dir.
  - cbn [fs]. apply Forall_forall. intros q Hq. unfold FS.is_dir.
    rewrite node_at_stored.
    + unfold f1. rewrite node_at_made. rewrite decide_True; [done|by right].
    + intros g Hg. rewrite Forall_forall in Hp.
      apply truediv_not_in_lineage; [auto|by right].
  - done.
  - cbn [trace]. rewrite drop_app_length.
    change (EvMkdir c :: banner c :: ?l) with ([EvMkdir c; banner c] ++ l)%list.
    rewrite requests_app. by rewrite requests_turns.
Qed.

End MissingDirectoryContract.

Lemma fetch_into_missing_directory_witness :
  exists w',
    get_checkpoint demo_environ demo_hub (steady_server 100)
      (Some (PStr "/fresh/nougat/ckpt")) true (mkWorld empty_dir_fs [])
    = (Ok (of_string "/fresh/nougat/ckpt"), w') /\
    FS.is_dir (fs w') (of_string "/fresh/nougat/ckpt") = true /\
    FS.is_dir (fs w') (of_string "/fresh/nougat") = true /\
    requests (trace w') = download_url <$> files.
Proof.
  destruct (fetch_into_missing_directory demo_environ demo_hub
              (steady_server 100) (Some (PStr "/fresh/nougat/ckpt"))
              (mkWorld empty_dir_fs []))
    as (w' & Hrun & Hdir & Hup & _ & Hreq).
  - by apply (bool_decide_unpack _); vm_compute.
  - reflexivity.
  - repeat constructor.
  - repeat constructor.
  - exists w'. split; [exact Hrun|]. split; [exact Hdir|]. split.
    + apply Forall_cons in Hup as [H _]. exact H.
    + exact Hreq.
Defined.

Section FailureContract.

Context (environ : gmap string string) (hub_dir : string)
        (server : string -> Reply).

(** A pass whose downloads succeed up to some artifact and then fail. *)
Lemma pass_aborts c pre file post e w :
  Forall plain_name pre ->
  Forall (fun g => fetch_error server g = None) pre ->
  fetch_error server file = Some e ->
  FS.is_dir (fs w) c = true ->
  Forall (fun g => FS.is_dir (fs w) (c </> g) = false) pre ->
  for_each (pre ++ file :: post) (download_file server c) w =
  (Raise (RequestError e),
   mkWorld (foldl (store server c) (fs w) pre)
     (trace w ++ concat (turn_events server c <$> pre)
              ++ [EvGet (download_url file)])).
Proof.
  intros Hp He Hfail Hd Hn. rewrite for_each_app, pass_succeeds by done.
  cbn [for_each]. unfold bind. rewrite (turn_fails _ _ _ e) by done.
  unfold logged. simpl. by rewrite <- app_assoc.
Qed.

(** C6, as the code has it. An exception of the HTTP client, raised by
    [requests.get] or while the body is read, is not caught: it ends
    [download_checkpoint] and [get_checkpoint] with that exception, after
    the artifacts before it were requested and, when longer than 15
    bytes, stored, and before any later artifact is requested or touched.
    The status code plays no part: a response that arrives whole is a
    successful download whatever its status. *)
Theorem transport_failure_aborts c pre file post e w :
  files = (pre ++ file :: post)%list ->
  Forall (fun g => fetch_error server g = None) pre ->
  fetch_error server file = Some e ->
  FS.is_dir (fs w) c = true ->
  Forall (fun g => FS.is_dir (fs w) (c </> g) = false) files ->
  exists w',
    download_checkpoint server c w = (Raise (RequestError e), w') /\
    (forall cp, initial_checkpoint environ hub_dir cp = c ->
       length (FS.listdir (fs w) c) < 5 ->
       exists w'', get_checkpoint environ hub_dir server cp true w
                   = (Raise (RequestError e), w'') /\ fs w'' = fs w') /\
    requests (drop (length (trace w)) (trace w'))
      = download_url <$> (pre ++ [file])%list /\
    (forall g, g ∈ pre -> 15 < length (payload server g) ->
       fs w' !! (c </> g) = Some (File (payload server g))) /\
    (forall g, g ∈ file :: post -> fs w' !! (c </> g) = fs w !! (c </> g)) /\
    (forall g r v, server (download_url g) = Answered r -> broken r = None ->
       download_as_bytes_with_progress server (download_url g) (Some g) v
       = (Ok (concat (chunks r)), logged v [EvGet (download_url g)])).
Proof.
  intros Hfiles He Hfail Hd Hn.
  pose proof files_all_plain as Hp. pose proof files_NoDup as Hnd.
  rewrite Hfiles in Hp, Hn, Hnd.
  apply Forall_app in Hp as [Hp Hp']. apply Forall_app in Hn as [Hn _].
  apply NoDup_app in Hnd as (_ & Hdisj & _).
  assert (Hrun : forall v, FS.is_dir (fs v) c = true -> fs v = fs w ->
    download_checkpoint server c v =
    (Raise (RequestError e),
     mkWorld (foldl (store server c) (fs w) pre)
       (trace v ++ banner c :: concat (turn_events server c <$> pre)
                ++ [EvGet (download_url file)]))).
  { intros v Hdv Hv. rewrite download_checkpoint_run, Hfiles.
    rewrite pass_aborts with (e := e); try done.
    - unfold logged. simpl. by rewrite Hv, <- !app_assoc.
    - simpl. by rewrite Hv. }
  eexists. split; [by apply Hrun|]. split; [|split; [|split; [|split]]].
  - intros cp Hcp Hlt. eexists. split.
    + rewrite get_checkpoint_run. cbv zeta. rewrite Hcp.
      rewrite (is_dir_resolved _ _ Hd), (is_dir_exists _ _ Hd),
        (is_dir_not_file _ _ Hd).
      replace (_ <? 5)%nat with true by (symmetry; by apply Nat.ltb_lt).
      rewrite fetch_pass_run.
      rewrite (bind_ok _ _ w tt (logged w [EvMkdir c]))
        by by apply mkdir_existing.
      rewrite Hrun by done. reflexivity.
    + reflexivity.
  - cbn [trace]. rewrite drop_app_length.
    change (banner c :: ?l) with ([banner c] ++ l)%list.
    rewrite !requests_app, requests_turns, fmap_app. done.
  - intros g Hg Hbig. cbn [fs].
    apply stored_written; [done| |done|by left].
    rewrite Forall_forall in Hp. by apply Hp.
  - intros g Hg. cbn [fs]. apply stored_untouched. intros g' Hg' _ Heq.
    rewrite Forall_forall in Hp, Hp'.
    apply truediv_inj in Heq; auto. subst g'. by apply (Hdisj g).
  - intros g r v Hr Hb. rewrite download_run.
    unfold fetch_error, payload. by rewrite Hr, Hb.
Qed.

End FailureContract.

Lemma transport_failure_aborts_witness :
  exists w',
    download_checkpoint flaky_server demo_dir (mkWorld empty_dir_fs [])
    = (Raise (RequestError ConnectionError), w') /\
    requests (trace w')
    = download_url <$> ["config.json"; "pytorch_model.bin";
                        "special_tokens_map.json"] /\
    fs w' !! (demo_dir </> "config.json") = Some (File (sample 100)) /\
    fs w' !! (demo_dir </> "tokenizer.json") = None.
Proof.
  destruct (transport_failure_aborts demo_environ demo_hub flaky_server
              demo_dir ["config.json"; "pytorch_model.bin"]
              "special_tokens_map.json"
              ["tokenizer.json"; "tokenizer_config.json"] ConnectionError
              (mkWorld empty_dir_fs []))
    as (w' & Hrun & _ & Hreq & Hpre & Hpost & _).
  - reflexivity.
  - repeat constructor.
  - reflexivity.
  - reflexivity.
  - repeat constructor.
  - exists w'. split; [exact Hrun|]. split; [exact Hreq|]. split.
    + apply (Hpre "config.json"); [by left|]. vm_compute. lia.
    + rewrite (Hpost "tokenizer.json"); [reflexivity|]. right. by left.
Defined.

(** C6 as stated fails: every reply carries status 404, yet no error
    reaches the caller and the pass is not cut short: all five artifacts
    are requested and the call returns normally. *)
Lemma not_found_is_not_an_error :
  (forall url, exists r,
     not_found_server url = Answered r /\ status_code r = 404) /\
  exists w',
    get_checkpoint demo_environ demo_hub not_found_server
      (Some (PStr "/data/ckpt")) true (mkWorld empty_dir_fs [])
    = (Ok demo_dir, w') /\
    requests (trace w') = download_url <$> files /\
    fs w' = empty_dir_fs.
Proof.
  split; [intros url; by eexists|].
  eexists. split; [vm_compute; reflexivity|]. split; reflexivity.
Qed.

(* ===================================================================== *)
(** * The checkpoint adapter of the training driver                       *)
(* ===================================================================== *)

Section Adapter.

Import Train.

Context (unpickle : bytes -> option checkpoint).

(** [torch.load] reads the file system and nothing else. *)
Lemma torch_load_pure p w :
  (torch_load unpickle p w).2 = w.
Proof.
  unfold torch_load. run.
  destruct (FS.node_at (fs w) p) as [[b|]|]; try done.
  by destruct (unpickle b).
Qed.

Lemma torch_load_same_fs p w v :
  fs w = fs v -> (torch_load unpickle p w).1 = (torch_load unpickle p v).1.
Proof.
  intros H. unfold torch_load. run. rewrite H.
  destruct (FS.node_at (fs v) p) as [[b|]|]; try done.
  by destruct (unpickle b).
Qed.

Lemma torch_load_split p w :
  torch_load unpickle p w = ((torch_load unpickle p w).1, w).
Proof.
  rewrite <- (torch_load_pure p w) at 3. by destruct (torch_load unpickle p w).
Qed.

Lemma prefix_keys_lookup (d : checkpoint) k :
  prefix_keys d !! ("model." ++ k) = d !! k.
Proof. unfold prefix_keys. apply (lookup_kmap (String.append "model.")). Qed.

Lemma prefix_keys_only (d : checkpoint) k' :
  is_Some (prefix_keys d !! k') ->
  exists k, k' = "model." ++ k /\ is_Some (d !! k).
Proof.
  unfold prefix_keys. intros [v Hv].
  apply (lookup_kmap_Some (String.append "model.")) in Hv as (k & -> & Hk).
  by exists k.
Qed.

Lemma load_checkpoint_run path w :
  load_checkpoint unpickle path w =
  let p := Path_new path in
  if FS.is_file (fs w) p then
    let w1 := logged w [EvPrint (String.concat " "
                ["path:"; to_string p; str_of_bool (FS.is_dir (fs w) p)])] in
    match (torch_load unpickle p w).1 with
    | Raise e => (Raise e, w1)
    | Ok ckpt =>
        if bool_decide ("state_dict" ∈ dom ckpt) then (Ok ckpt, w1)
        else
          match (torch_load unpickle (parent p </> "pytorch_model.bin") w).1
          with
          | Raise e => (Raise e, w1)
          | Ok weights =>
              (Ok (<["state_dict" := PyDict (prefix_keys weights)]> ckpt), w1)
          end
    end
  else
    match (torch_load unpickle (p </> "artifacts.ckpt") w).1 with
    | Raise e => (Raise e, w)
    | Ok ckpt =>
        match (torch_load unpickle (p </> "pytorch_model.bin") w).1 with
        | Raise e => (Raise e, w)
        | Ok weights =>
            (Ok (<["state_dict" := PyDict (prefix_keys weights)]> ckpt), w)
        end
    end.
Proof.
  cbv zeta. unfold load_checkpoint. set (p := Path_new path).
  rewrite (bind_ok _ _ w (FS.is_file (fs w) p) w) by done.
  destruct (FS.is_file (fs w) p).
  - rewrite (bind_ok _ _ w (FS.is_dir (fs w) p) w) by done.
    set (w1 := logged w _).
    rewrite (bind_ok _ _ w tt w1) by done.
    unfold bind. rewrite (torch_load_split p w1).
    rewrite (torch_load_same_fs p w1 w) by done.
    destruct (torch_load unpickle p w).1 as [ckpt|e]; [|done].
    destruct (bool_decide _); cbn [negb]; [done|].
    rewrite (torch_load_split _ w1).
    rewrite (torch_load_same_fs _ w1 w) by done.
    by destruct (torch_load unpickle _ w).1.
  - unfold bind. rewrite (torch_load_split _ w).
    destruct (torch_load unpickle _ w).1 as [ckpt|e]; [|done].
    rewrite (torch_load_split _ w).
    by destruct (torch_load unpickle _ w).1.
Qed.

(** C10. Whenever [load_checkpoint] returns, the mapping it returns has a
    ["state_dict"] entry. For a regular file whose mapping has the entry
    the mapping is returned as loaded; for a regular file whose mapping
    lacks it, the entry is built from [pytorch_model.bin] in the file's
    parent directory; for any other path (a directory) it is built from
    [pytorch_model.bin] inside the path, over the mapping of
    [artifacts.ckpt]. A built entry holds every key of the weights file
    prefixed with ["model."], with the same value, and nothing else. *)
Theorem load_checkpoint_state_dict path w r w' :
  load_checkpoint unpickle path w = (Ok r, w') ->
  let p := Path_new path in
  is_Some (r !! "state_dict") /\
  fs w' = fs w /\
  (FS.is_file (fs w) p = true ->
     exists ckpt, (torch_load unpickle p w).1 = Ok ckpt /\
       (is_Some (ckpt !! "state_dict") -> r = ckpt) /\
       (ckpt !! "state_dict" = None ->
          exists weights,
            (torch_load unpickle (parent p </> "pytorch_model.bin") w).1
              = Ok weights /\
            r = <["state_dict" := PyDict (prefix_keys weights)]> ckpt)) /\
  (FS.is_file (fs w) p = false ->
     exists ckpt weights,
       (torch_load unpickle (p </> "artifacts.ckpt") w).1 = Ok ckpt /\
       (torch_load unpickle (p </> "pytorch_model.bin") w).1 = Ok weights /\
       r = <["state_dict" := PyDict (prefix_keys weights)]> ckpt) /\
  (forall (d : checkpoint) k,
     prefix_keys d !! ("model." ++ k) = d !! k) /\
  (forall (d : checkpoint) k',
     is_Some (prefix_keys d !! k') ->
     exists k, k' = "model." ++ k /\ is_Some (d !! k)).
Proof.
  intros Hrun p. rewrite load_checkpoint_run in Hrun. cbv zeta in Hrun.
  fold p in Hrun.
  assert (Hkeys : (forall (d : checkpoint) k,
             prefix_keys d !! ("model." ++ k) = d !! k) /\
          (forall (d : checkpoint) k',
             is_Some (prefix_keys d !! k') ->
             exists k, k' = "model." ++ k /\ is_Some (d !! k)))
    by (split; [apply prefix_keys_lookup|apply prefix_keys_only]).
  destruct (FS.is_file (fs w) p).
  - destruct (torch_load unpickle p w).1 as [ckpt|e]; [|done].
    destruct (bool_decide ("state_dict" ∈ dom ckpt)) eqn:Ek.
    + apply bool_decide_eq_true in Ek. apply elem_of_dom in Ek.
      injection Hrun as <- <-.
      split; [done|]. split; [done|]. split; [|split; [done|done]].
      intros _. exists ckpt. split; [done|]. split; [done|].
      intros Hnone. rewrite Hnone in Ek. by destruct Ek.
    + apply bool_decide_eq_false in Ek. rewrite elem_of_dom in Ek.
      destruct (torch_load unpickle (parent p </> _) w).1 as [weights|e];
        [|done].
      injection Hrun as <- <-.
      split; [rewrite lookup_insert_eq; by eexists|].
      split; [done|]. split; [|split; [done|done]].
      intros _. exists ckpt. split; [done|]. split; [done|].
      intros _. by exists weights.
  - destruct (torch_load unpickle (p </> "artifacts.ckpt") w).1
      as [ckpt|e]; [|done].
    destruct (torch_load unpickle (p </> "pytorch_model.bin") w).1
      as [weights|e]; [|done].
    injection Hrun as <- <-.
    split; [rewrite lookup_insert_eq; by eexists|].
    split; [done|]. split; [done|]. split; [|done].
    intros _. by exists ckpt, weights.
Qed.

End Adapter.

Lemma load_checkpoint_state_dict_witness :
  let r := <["state_dict" :=
               Train.PyDict {[ "model.encoder.weight" :=
                                 Train.PyTensor [1%Z; 2%Z] ]}]>
             ({[ "epoch" := Train.PyInt 3 ]} : Train.checkpoint) in
  Train.load_checkpoint demo_unpickle (PStr "/run/last.ckpt")
    (mkWorld train_fs [])
  = (Ok r, mkWorld train_fs [EvPrint "path: /run/last.ckpt False"]) /\
  is_Some (r !! "state_dict").
Proof.
  intros r.
  assert (Hrun : Train.load_checkpoint demo_unpickle (PStr "/run/last.ckpt")
            (mkWorld train_fs [])
          = (Ok r, mkWorld train_fs [EvPrint "path: /run/last.ckpt False"])).
  { vm_compute. reflexivity. }
  split; [exact Hrun|].
  exact (proj1 (load_checkpoint_state_dict demo_unpickle _ _ _ _ Hrun)).
Defined.

(* ===================================================================== *)
(** * What every run respects                                             *)
(* ===================================================================== *)

Section Respects.

Context (R : World -> World -> Prop).
Hypothesis R_refl : forall w, R w w.
Hypothesis R_trans : forall w1 w2 w3, R w1 w2 -> R w2 w3 -> R w1 w3.

Lemma respects_ret {A} (a : A) : respects R (ret a).
Proof. intros w. apply R_refl. Qed.

Lemma respects_raise {A} e : respects R (@raise A e).
Proof. intros w. apply R_refl. Qed.

Lemma respects_get_fs : respects R get_fs.
Proof. intros w. apply R_refl. Qed.

Lemma respects_bind {A B} (m : M A) (k : A -> M B) :
  respects R m -> (forall a, respects R (k a)) -> respects R (bind m k).
Proof.
  intros Hm Hk w. unfold bind. specialize (Hm w).
  destruct (m w) as [[a|e] w1]; simpl in *; [|done].
  eapply R_trans; [exact Hm|apply Hk].
Qed.

Lemma respects_catch {A} (m : M A) (h : Exn -> M A) :
  respects R m -> (forall e, respects R (h e)) -> respects R (catch m h).
Proof.
  intros Hm Hh w. unfold catch. specialize (Hm w).
  destruct (m w) as [[a|e] w1]; simpl in *; [done|].
  eapply R_trans; [exact Hm|apply Hh].
Qed.

Lemma respects_for_each {A} (l : list A) body :
  (forall x, x ∈ l -> respects R (body x)) -> respects R (for_each l body).
Proof.
  induction l as [|x l IH]; intros Hb; simpl; [apply respects_ret|].
  apply respects_bind; [apply Hb; by left|].
  intros _. apply IH. intros y Hy. apply Hb. by right.
Qed.

Ltac respects_step :=
  first [ solve [auto]
        | apply respects_ret
        | apply respects_raise
        | apply respects_get_fs
        | apply respects_catch; [|intros ?]
        | apply respects_bind; [|intros ?]
        | match goal with
          | |- respects R (match ?x with _ => _ end) => destruct x
          end
        | match goal with
          | |- respects R (if ?x then _ else _) => destruct x
          end ].

Lemma respects_is_dir p : respects R (Path_is_dir p).
Proof. unfold Path_is_dir. repeat respects_step. Qed.

Lemma respects_exists p : respects R (Path_exists p).
Proof. unfold Path_exists. repeat respects_step. Qed.

Section Mkdir.

Hypothesis R_os_mkdir : forall p, respects R (os_mkdir p).

Lemma respects_mkdir_leaf p ok : respects R (mkdir_leaf p ok).
Proof.
  pose proof respects_is_dir. unfold mkdir_leaf. repeat respects_step.
Qed.

Lemma respects_mkdir_parents a rparts ok :
  respects R (mkdir_parents a rparts ok).
Proof.
  pose proof respects_is_dir. pose proof respects_mkdir_leaf.
  revert ok; induction rparts as [|x up IH]; intros ok; cbn [mkdir_parents];
    repeat respects_step.
Qed.

Lemma respects_makedirs a rparts : respects R (Driver.makedirs a rparts).
Proof.
  pose proof respects_exists.
  induction rparts as [|x up IH]; cbn [Driver.makedirs];
    repeat respects_step.
Qed.

Section Pass.

Context (server : string -> Reply) (c : Path).
Hypothesis R_log : forall e, respects R (log e).
Hypothesis R_write :
  forall file d, file ∈ files -> respects R (Path_write_bytes (c </> file) d).

Lemma respects_download url name :
  respects R (download_as_bytes_with_progress server url name).
Proof.
  unfold download_as_bytes_with_progress, requests_get, iter_content.
  repeat respects_step.
Qed.

Lemma respects_download_checkpoint :
  respects R (download_checkpoint server c).
Proof.
  unfold download_checkpoint, print. apply respects_bind; [apply R_log|].
  intros _. apply respects_for_each. intros file Hfile.
  unfold download_file. apply respects_bind; [apply respects_download|].
  intros b. destruct (15 <? _)%nat; [by apply R_write|apply respects_ret].
Qed.

Lemma respects_fetch_pass : respects R (fetch_pass server c).
Proof.
  unfold fetch_pass, Path_mkdir.
  apply respects_bind.
  - apply respects_bind; [apply R_log|]. intros _.
    apply respects_mkdir_parents.
  - intros _. apply respects_bind; [apply respects_download_checkpoint|].
    intros _. apply respects_ret.
Qed.

End Pass.

End Mkdir.

End Respects.

Lemma is_dir_insert_ne f p v q :
  q <> p -> FS.is_dir (<[p := v]> f) q = FS.is_dir f q.
Proof.
  intros Hne. unfold FS.is_dir, FS.node_at. destruct (parts q); [done|].
  by rewrite lookup_insert_ne.
Qed.

Lemma parent_ne_self p : parts p <> [] -> parent p <> p.
Proof.
  intros Hp E. apply (f_equal (fun x => length (parts x))) in E.
  unfold parent in E. simpl in E.
  destruct (parts p) as [|x l] using rev_ind; [done|].
  rewrite removelast_last, length_app in E. simpl in E. lia.
Qed.

(** Putting a node where no directory was, inside a directory, keeps the
    file system well formed. *)
Lemma wf_insert f p v :
  FS.wf f -> parts p <> [] ->
  FS.is_dir f (parent p) = true -> FS.is_dir f p = false ->
  FS.wf (<[p := v]> f).
Proof.
  intros Hwf Hp Hpar Hnd k nd Hk.
  destruct (decide (k = p)) as [->|Hne].
  - split; [done|]. rewrite is_dir_insert_ne; [done|]. by apply parent_ne_self.
  - rewrite lookup_insert_ne in Hk by done.
    destruct (Hwf _ _ Hk) as [Hkp Hkd]. split; [done|].
    rewrite is_dir_insert_ne; [done|]. intros E. by rewrite E, Hnd in Hkd.
Qed.

Lemma node_at_None f p :
  FS.node_at f p = None -> parts p <> [] /\ f !! p = None.
Proof. unfold FS.node_at. by destruct (parts p). Qed.

Lemma node_at_File f p b :
  FS.node_at f p = Some (File b) -> parts p <> [] /\ f !! p = Some (File b).
Proof. unfold FS.node_at. by destruct (parts p). Qed.

Section StaysWf.

Lemma stays_wf_refl w : stays_wf w w.
Proof. by intros H. Qed.

Lemma stays_wf_trans w1 w2 w3 :
  stays_wf w1 w2 -> stays_wf w2 w3 -> stays_wf w1 w3.
Proof. intros H1 H2 H. by apply H2, H1. Qed.

Lemma stays_wf_log e : respects stays_wf (log e).
Proof. by intros w H. Qed.

Lemma stays_wf_os_mkdir p : respects stays_wf (os_mkdir p).
Proof.
  intros w Hwf. unfold os_mkdir. run.
  destruct (FS.node_at (fs w) p) as [nd|] eqn:Ep; [done|].
  destruct (FS.node_at (fs w) (parent p)) as [[|]|] eqn:Epar; try done.
  simpl. apply node_at_None in Ep as [Hp Hnone].
  apply wf_insert; try done.
  - unfold FS.is_dir. by rewrite Epar.
  - unfold FS.is_dir, FS.node_at. destruct (parts p); [done|]. by rewrite Hnone.
Qed.

Lemma stays_wf_write p d : respects stays_wf (Path_write_bytes p d).
Proof.
  intros w Hwf. unfold Path_write_bytes. run.
  destruct (FS.node_at (fs w) p) as [[b|]|] eqn:Ep; try done.
  - simpl. apply node_at_File in Ep as [Hp Hfile].
    destruct (Hwf _ _ Hfile) as [_ Hpar].
    apply wf_insert; try done.
    unfold FS.is_dir, FS.node_at. destruct (parts p); [done|]. by rewrite Hfile.
  - destruct (FS.node_at (fs w) (parent p)) as [[|]|] eqn:Epar; try done.
    simpl. apply node_at_None in Ep as [Hp Hnone].
    apply wf_insert; try done.
    + unfold FS.is_dir. by rewrite Epar.
    + unfold FS.is_dir, FS.node_at. destruct (parts p); [done|].
      by rewrite Hnone.
Qed.

End StaysWf.

Section KeepsOutside.

Context (touch : Path -> Prop).

Lemma keeps_outside_refl w : keeps_outside touch w w.
Proof. by intros q nd _ H. Qed.

Lemma keeps_outside_trans w1 w2 w3 :
  keeps_outside touch w1 w2 -> keeps_outside touch w2 w3 ->
  keeps_outside touch w1 w3.
Proof. intros H1 H2 q nd Hq H. by apply H2, H1. Qed.

Lemma keeps_outside_log e : respects (keeps_outside touch) (log e).
Proof. by intros w q nd _ H. Qed.

Lemma keeps_outside_os_mkdir p : respects (keeps_outside touch) (os_mkdir p).
Proof.
  intros w q nd _ Hq. unfold os_mkdir. run.
  destruct (FS.node_at (fs w) p) as [nd'|] eqn:Ep; [done|].
  destruct (FS.node_at (fs w) (parent p)) as [[|]|] eqn:Epar; try done.
  simpl. apply node_at_None in Ep as [Hp Hnone].
  rewrite lookup_insert_ne; [done|]. intros ->. by rewrite Hnone in Hq.
Qed.

Lemma keeps_outside_write p d :
  touch p -> respects (keeps_outside touch) (Path_write_bytes p d).
Proof.
  intros Hp w q nd Hq Hlook. unfold Path_write_bytes. run.
  assert (q <> p) by (by intros ->).
  destruct (FS.node_at (fs w) p) as [[b|]|] eqn:Ep; try done.
  - simpl. by rewrite lookup_insert_ne.
  - destruct (FS.node_at (fs w) (parent p)) as [[|]|] eqn:Epar; try done.
    simpl. by rewrite lookup_insert_ne.
Qed.

End KeepsOutside.

Section GetCheckpointRespects.

Context (environ : gmap string string) (hub_dir : string)
        (server : string -> Reply).

Lemma get_checkpoint_respects (R : World -> World -> Prop) cp download w :
  R w w ->
  R w (fetch_pass server
         (resolved (fs w) (initial_checkpoint environ hub_dir cp)) w).2 ->
  R w (get_checkpoint environ hub_dir server cp download w).2.
Proof.
  intros Hrefl Hpass. rewrite get_checkpoint_run. cbv zeta.
  destruct download; [|done].
  destruct (FS.exists_ _ _); [|done].
  destruct (FS.is_file _ _); [done|].
  by destruct (_ <? 5)%nat.
Qed.

(** X1. Whatever the server does and however the call ends, a well-formed
    file system is still well formed after [get_checkpoint]: every entry
    it leaves sits in a directory. *)
Theorem get_checkpoint_keeps_wf cp download w :
  FS.wf (fs w) ->
  FS.wf (fs (get_checkpoint environ hub_dir server cp download w).2).
Proof.
  apply (get_checkpoint_respects stays_wf); [apply stays_wf_refl|].
  apply respects_fetch_pass.
  - apply stays_wf_refl.
  - apply stays_wf_trans.
  - apply stays_wf_os_mkdir.
  - apply stays_wf_log.
  - intros file d _. apply stays_wf_write.
Qed.

(** X2. Whatever the server does and however the call ends,
    [get_checkpoint] removes nothing and alters nothing that was there,
    except for the five artifact files inside the resolved directory. *)
Theorem get_checkpoint_keeps_outside cp download w q nd :
  let c := resolved (fs w) (initial_checkpoint environ hub_dir cp) in
  ~ artifact_of c q ->
  fs w !! q = Some nd ->
  fs (get_checkpoint environ hub_dir server cp download w).2 !! q = Some nd.
Proof.
  intros c. revert q nd. fold (keeps_outside (artifact_of c) w
    (get_checkpoint environ hub_dir server cp download w).2).
  apply (get_checkpoint_respects (keeps_outside (artifact_of c)));
    [apply keeps_outside_refl|].
  apply respects_fetch_pass.
  - apply keeps_outside_refl.
  - apply keeps_outside_trans.
  - apply keeps_outside_os_mkdir.
  - apply keeps_outside_log.
  - intros file d Hfile. apply keeps_outside_write. by exists file.
Qed.

End GetCheckpointRespects.

Section Requests.

Context (environ : gmap string string) (hub_dir : string)
        (server : string -> Reply).

Lemma silent_os_mkdir p : respects silent (os_mkdir p).
Proof.
  intros w. unfold silent, os_mkdir. run.
  destruct (FS.node_at (fs w) p); [done|].
  by destruct (FS.node_at (fs w) (parent p)) as [[|]|].
Qed.

Lemma mkdir_trace c w :
  trace (Path_mkdir c true true w).2 = (trace w ++ [EvMkdir c])%list.
Proof.
  unfold Path_mkdir. unfold bind at 1. unfold log at 1. cbv beta iota.
  apply (respects_mkdir_parents silent); try done.
  - intros w1 w2 w3 H1 H2. unfold silent in *. congruence.
  - apply silent_os_mkdir.
Qed.

Lemma write_trace p d w :
  trace (Path_write_bytes p d w).2 = (trace w ++ [EvWrite p d])%list.
Proof.
  unfold Path_write_bytes. run.
  destruct (FS.node_at (fs w) p) as [[|]|]; try done.
  by destruct (FS.node_at (fs w) (parent p)) as [[|]|].
Qed.

Lemma requests_get_cons url evs :
  requests (EvGet url :: evs) = url :: requests evs.
Proof. reflexivity. Qed.

(** A turn of the loop issues exactly one request, first thing. *)
Lemma turn_trace c file w :
  exists evs,
    trace (download_file server c file w).2
    = (trace w ++ EvGet (download_url file) :: evs)%list /\
    requests evs = [].
Proof.
  unfold download_file, bind. rewrite download_run.
  destruct (fetch_error server file); [by exists []|].
  destruct (15 <? _)%nat; [|by exists []].
  eexists. split; [|shelve].
  rewrite write_trace. simpl. rewrite <- app_assoc. reflexivity.
  Unshelve. done.
Qed.

Lemma pass_trace c fl w :
  exists evs k,
    trace (for_each fl (download_file server c) w).2
    = (trace w ++ evs)%list /\
    requests evs = take k (download_url <$> fl).
Proof.
  revert w. induction fl as [|file fl IH]; intros w.
  { exists [], 0. simpl. by rewrite app_nil_r. }
  cbn [for_each]. unfold bind.
  destruct (turn_trace c file w) as (evs & Ht & Hr).
  destruct (download_file server c file w) as [[[]|e] w1]; simpl in Ht.
  - destruct (IH w1) as (evs' & k & Ht' & Hr').
    exists ((EvGet (download_url file) :: evs) ++ evs')%list, (S k). split.
    + rewrite Ht', Ht. by rewrite <- app_assoc.
    + rewrite requests_app, requests_get_cons, Hr, Hr'. done.
  - exists (EvGet (download_url file) :: evs), 1. split; [done|].
    by rewrite requests_get_cons, Hr.
Qed.

Lemma fetch_pass_trace c w :
  exists evs k,
    trace (fetch_pass server c w).2 = (trace w ++ evs)%list /\
    requests evs = take k (download_url <$> files).
Proof.
  rewrite fetch_pass_run. unfold bind.
  pose proof (mkdir_trace c w) as Hm.
  destruct (Path_mkdir c true true w) as [[[]|e] w1]; simpl in Hm.
  - rewrite download_checkpoint_run.
    destruct (pass_trace c files (logged w1 [banner c])) as (evs & k & Ht & Hr).
    exists ([EvMkdir c; banner c] ++ evs)%list, k. split.
    + destruct (for_each _ _ _) as [[[]|e] w2]; simpl in *;
        rewrite Ht, Hm; by rewrite <- !app_assoc.
    + by rewrite requests_app.
  - exists [EvMkdir c], 0. by split.
Qed.

(** X3. Whatever the server does and however the call ends, the requests
    that [get_checkpoint] issues are an initial segment of the five
    artifact URLs in the order of the list: no other URL is ever
    requested, none twice, none out of order. *)
Theorem get_checkpoint_requests_prefix cp download w :
  exists k,
    requests (drop (length (trace w))
                (trace (get_checkpoint environ hub_dir server cp download w).2))
    = take k (download_url <$> files).
Proof.
  assert (H : exists evs k,
    trace (get_checkpoint environ hub_dir server cp download w).2
    = (trace w ++ evs)%list /\
    requests evs = take k (download_url <$> files)).
  { apply (get_checkpoint_respects environ hub_dir server
             (fun w w' => exists evs k, trace w' = (trace w ++ evs)%list /\
                requests evs = take k (download_url <$> files))).
    - exists [], 0. by rewrite app_nil_r.
    - apply fetch_pass_trace. }
  destruct H as (evs & k & -> & Hr). exists k. by rewrite drop_app_length.
Qed.

End Requests.

Section FileSystemFailures.

Context (environ : gmap string string) (hub_dir : string)
        (server : string -> Reply).

(** In a well-formed file system every ancestor of a directory is one. *)
Lemma wf_lineage_dirs f a rparts :
  FS.wf f -> FS.is_dir f (mkPath a (rev rparts)) = true ->
  Forall (fun q => FS.is_dir f q = true) (FS.up_from a rparts).
Proof.
  intros Hwf. induction rparts as [|x up IH]; intros Hd; [constructor|].
  cbn [FS.up_from].
  assert (Hpar : FS.is_dir f (mkPath a (rev up)) = true).
  { unfold FS.is_dir, FS.node_at in Hd. cbn [parts] in Hd.
    destruct (rev (x :: up)) eqn:Er.
    { simpl in Er. by destruct (rev up). }
    rewrite <- Er in Hd. destruct (f !! _) as [[]|] eqn:El; try done.
    destruct (Hwf _ _ El) as [_ H]. by rewrite parent_rev in H. }
  constructor; [done|by apply IH].
Qed.

Lemma mkdir_parents_blocked a rparts w :
  FS.wf (fs w) ->
  FS.exists_ (fs w) (mkPath a (rev rparts)) = false ->
  Exists (fun q => FS.is_file (fs w) q = true) (FS.up_from a rparts) ->
  mkdir_parents a rparts true w = (Raise NotADirectoryError, w).
Proof.
  intros Hwf Hmiss Hblock. destruct rparts as [|x up].
  { by apply Exists_nil in Hblock. }
  set (self := mkPath a (rev (x :: up))) in *.
  assert (Hnone : FS.node_at (fs w) self = None).
  { unfold FS.exists_ in Hmiss. by destruct (FS.node_at (fs w) self). }
  assert (Hnd : FS.is_dir (fs w) self = false).
  { unfold FS.is_dir. by rewrite Hnone. }
  assert (Hmk : os_mkdir self w = (Raise NotADirectoryError, w)).
  { unfold os_mkdir. run. rewrite Hnone.
    unfold self at 1. rewrite parent_rev.
    destruct (FS.node_at (fs w) (mkPath a (rev up))) as [[|]|] eqn:Ep.
    - done.
    - exfalso. assert (Hd : FS.is_dir (fs w) (mkPath a (rev up)) = true)
        by (unfold FS.is_dir; by rewrite Ep).
      pose proof (wf_lineage_dirs _ _ _ Hwf Hd) as Hall.
      cbn [FS.up_from] in Hblock. apply Exists_cons in Hblock as [H|H].
      + by rewrite (is_dir_not_file _ _ Hd) in H.
      + apply Exists_exists in H as (q & Hq & Hf).
        rewrite Forall_forall in Hall.
        by rewrite (is_dir_not_file _ _ (Hall q Hq)) in Hf.
    - unfold FS.lookup_error, FS.ancestors, self. cbn [anchor parts].
      rewrite rev_involutive.
      replace (existsb _ _) with true; [done|].
      symmetry. apply existsb_exists.
      apply Exists_exists in Hblock as (q & Hq & Hf).
      exists q. split; [by apply list_elem_of_In|done]. }
  cbn [mkdir_parents]. fold self. unfold catch. rewrite Hmk.
  cbv beta iota. unfold is_OSError, Path_is_dir, bind, get_fs, ret, raise.
  cbv beta iota. by rewrite Hnd.
Qed.

(** X4. On a well-formed file system, when the target does not exist and
    one of its ancestors is a regular file, [get_checkpoint] with
    downloading enabled fails with [NotADirectoryError] as soon as it tries
    to create the directory: nothing is created and no request is
    issued. *)
Theorem get_checkpoint_blocked_by_file cp w :
  let c := initial_checkpoint environ hub_dir cp in
  FS.wf (fs w) ->
  FS.exists_ (fs w) c = false ->
  Exists (fun q => FS.is_file (fs w) q = true) (FS.ancestors c) ->
  get_checkpoint environ hub_dir server cp true w
  = (Raise NotADirectoryError, logged w [EvMkdir c]).
Proof.
  intros c Hwf Hmiss Hblock.
  assert (Hnf : FS.is_file (fs w) c = false).
  { destruct (FS.is_file (fs w) c) eqn:E; [|done].
    by rewrite (is_file_exists _ _ E) in Hmiss. }
  rewrite get_checkpoint_run. cbv zeta. fold c.
  rewrite (resolved_other _ _ Hnf), Hmiss. rewrite fetch_pass_run.
  rewrite (bind_raise _ _ w NotADirectoryError (logged w [EvMkdir c]));
    [done|].
  unfold Path_mkdir, bind, log. apply mkdir_parents_blocked; simpl.
  - done.
  - by rewrite path_rev_eta.
  - done.
Qed.

(** A turn whose payload is long and whose name is taken by a directory. *)
Lemma turn_hits_directory c file w :
  fetch_error server file = None ->
  15 < length (payload server file) ->
  FS.is_dir (fs w) (c </> file) = true ->
  download_file server c file w =
  (Raise IsADirectoryError,
   logged w [EvGet (download_url file);
             EvWrite (c </> file) (payload server file)]).
Proof.
  intros He Hbig Hd. unfold download_file, bind. rewrite download_run, He.
  apply Nat.ltb_lt in Hbig. rewrite Hbig.
  unfold Path_write_bytes. run. unfold FS.is_dir in Hd.
  destruct (FS.node_at (fs w) (c </> file)) as [[|]|]; try done.
  unfold logged. simpl. by rewrite <- app_assoc.
Qed.

(** X5. A directory that sits where an artifact is to be written stops the
    pass: when the payload of that artifact is longer than 15 bytes,
    [get_checkpoint] fails with [IsADirectoryError], after the artifacts
    before it were fetched and stored and before any later one is
    requested; the directory itself is left as it is. *)
Theorem get_checkpoint_artifact_is_directory cp w pre file post :
  let c := initial_checkpoint environ hub_dir cp in
  files = (pre ++ file :: post)%list ->
  FS.is_dir (fs w) c = true ->
  length (FS.listdir (fs w) c) < 5 ->
  Forall (fun g => FS.is_dir (fs w) (c </> g) = false) pre ->
  FS.is_dir (fs w) (c </> file) = true ->
  Forall (fun g => fetch_error server g = None) (pre ++ [file]) ->
  15 < length (payload server file) ->
  exists w',
    get_checkpoint environ hub_dir server cp true w
    = (Raise IsADirectoryError, w') /\
    fs w' = foldl (store server c) (fs w) pre /\
    FS.is_dir (fs w') (c </> file) = true /\
    requests (drop (length (trace w)) (trace w'))
    = download_url <$> (pre ++ [file])%list.
Proof.
  intros c Hfiles Hd Hlt Hn Hsquat He Hbig.
  pose proof files_all_plain as Hp. pose proof files_NoDup as Hnd.
  rewrite Hfiles in Hp, Hnd.
  apply Forall_app in Hp as [Hp Hp']. apply Forall_cons in Hp' as [Hpf _].
  apply NoDup_app in Hnd as (_ & Hdisj & _).
  apply Forall_app in He as [He Hef]. apply Forall_cons in Hef as [Hef _].
  assert (Hkeep : FS.is_dir (foldl (store server c) (fs w) pre) (c </> file)
                  = true).
  { unfold FS.is_dir. rewrite node_at_stored; [done|].
    intros g Hg Heq. rewrite Forall_forall in Hp.
    apply truediv_inj in Heq; auto. subst g.
    apply (Hdisj file Hg). by left. }
  eexists. split; [|split; [|split]].
  - rewrite get_checkpoint_run. cbv zeta. fold c.
    rewrite (is_dir_resolved _ _ Hd), (is_dir_exists _ _ Hd),
      (is_dir_not_file _ _ Hd).
    replace (_ <? 5)%nat with true by (symmetry; by apply Nat.ltb_lt).
    rewrite fetch_pass_run.
    rewrite (bind_ok _ _ w tt (logged w [EvMkdir c]))
      by by apply mkdir_existing.
    rewrite download_checkpoint_run, Hfiles, for_each_app.
    rewrite pass_succeeds by done.
    cbn [for_each]. unfold bind.
    rewrite turn_hits_directory by done. reflexivity.
  - done.
  - done.
  - unfold logged. cbn [trace fs]. rewrite <- !app_assoc.
    rewrite drop_app_length.
    change ([EvMkdir c] ++ [banner c] ++ ?l)%list
      with ([EvMkdir c; banner c] ++ l)%list.
    rewrite !requests_app, requests_turns, fmap_app. done.
Qed.

(** A turn whose payload is short: requested, then dropped. *)
Lemma turn_drops c file w :
  fetch_error server file = None ->
  length (payload server file) <= 15 ->
  download_file server c file w
  = (Ok tt, logged w [EvGet (download_url file)]).
Proof.
  intros He Hsmall. unfold download_file, bind. rewrite download_run, He.
  by replace (15 <? _)%nat with false by (symmetry; apply Nat.ltb_ge; lia).
Qed.

Lemma pass_drops_all c fl w :
  Forall (fun g => fetch_error server g = None) fl ->
  Forall (fun g => length (payload server g) <= 15) fl ->
  for_each fl (download_file server c) w
  = (Ok tt, logged w (EvGet ∘ download_url <$> fl)).
Proof.
  revert w. induction fl as [|g fl IH]; intros w He Hs.
  { unfold logged. simpl. rewrite app_nil_r. by destruct w. }
  apply Forall_cons in He as [Heg He]. apply Forall_cons in Hs as [Hsg Hs].
  cbn [for_each]. unfold bind. rewrite turn_drops by done.
  rewrite IH by done. unfold logged. simpl. by rewrite <- app_assoc.
Qed.

Lemma requests_gets (urls : list string) : requests (EvGet <$> urls) = urls.
Proof.
  induction urls as [|u l IH]; [done|].
  rewrite fmap_cons, requests_get_cons. by rewrite IH.
Qed.

(** X6. When every artifact is served with at most 15 bytes, a call on an
    incomplete directory succeeds although it stores nothing: the file
    system is left as it was, so the directory is as incomplete as before
    and the next call requests all five artifacts again. *)
Theorem get_checkpoint_short_payloads cp w :
  let c := initial_checkpoint environ hub_dir cp in
  FS.is_dir (fs w) c = true ->
  length (FS.listdir (fs w) c) < 5 ->
  Forall (fun g => fetch_error server g = None) files ->
  Forall (fun g => length (payload server g) <= 15) files ->
  exists w1,
    get_checkpoint environ hub_dir server cp true w = (Ok c, w1) /\
    fs w1 = fs w /\
    requests (drop (length (trace w)) (trace w1)) = download_url <$> files /\
    exists w2,
      get_checkpoint environ hub_dir server cp true w1 = (Ok c, w2) /\
      fs w2 = fs w /\
      requests (drop (length (trace w1)) (trace w2)) = download_url <$> files.
Proof.
  intros c Hd Hlt He Hs.
  assert (Hrun : forall v, fs v = fs w ->
    get_checkpoint environ hub_dir server cp true v
    = (Ok c, logged v (EvMkdir c :: banner c ::
                         (EvGet ∘ download_url <$> files)))).
  { intros v Hv. rewrite get_checkpoint_run. cbv zeta. fold c. rewrite Hv.
    rewrite (is_dir_resolved _ _ Hd), (is_dir_exists _ _ Hd),
      (is_dir_not_file _ _ Hd).
    replace (_ <? 5)%nat with true by (symmetry; by apply Nat.ltb_lt).
    rewrite fetch_pass_run.
    rewrite (bind_ok _ _ v tt (logged v [EvMkdir c]))
      by (apply mkdir_existing; by rewrite Hv).
    rewrite download_checkpoint_run, pass_drops_all by done.
    unfold logged. simpl. by rewrite <- !app_assoc. }
  assert (Hreq : forall v,
    requests (drop (length (trace v))
       (trace (logged v (EvMkdir c :: banner c ::
                 (EvGet ∘ download_url <$> files)))))
    = download_url <$> files).
  { intros v. unfold logged. cbn [trace]. rewrite drop_app_length.
    change (EvMkdir c :: banner c :: ?l) with ([EvMkdir c; banner c] ++ l)%list.
    rewrite requests_app, list_fmap_compose, requests_gets. done. }
  eexists. split; [by apply Hrun|]. split; [done|]. split; [apply Hreq|].
  eexists. split; [by apply Hrun|]. split; [done|]. apply Hreq.
Qed.

End FileSystemFailures.

Lemma get_checkpoint_keeps_wf_witness :
  FS.wf (fs (get_checkpoint demo_environ demo_hub flaky_server
               (Some (PStr "/data/ckpt")) true
               (mkWorld four_files_fs [])).2).
Proof.
  apply (get_checkpoint_keeps_wf demo_environ demo_hub flaky_server
           (Some (PStr "/data/ckpt")) true (mkWorld four_files_fs [])).
  by apply (bool_decide_unpack _); vm_compute.
Defined.

Lemma get_checkpoint_keeps_outside_witness :
  fs (get_checkpoint demo_environ demo_hub (steady_server 100)
        (Some (PStr "/data/ckpt")) true (mkWorld four_files_fs [])).2
    !! of_string "/data" = Some Dir.
Proof.
  apply (get_checkpoint_keeps_outside demo_environ demo_hub
           (steady_server 100) (Some (PStr "/data/ckpt")) true
           (mkWorld four_files_fs []) (of_string "/data") Dir).
  - intros (file & Hin & Heq).
    repeat (apply elem_of_cons in Hin as [->|Hin];
            [vm_compute in Heq; discriminate|]).
    by apply elem_of_nil in Hin.
  - reflexivity.
Defined.

Lemma get_checkpoint_blocked_by_file_witness :
  get_checkpoint demo_environ demo_hub (steady_server 100)
    (Some (PStr "/data/ckpt/config.json/sub")) true
    (mkWorld four_files_fs [])
  = (Raise NotADirectoryError,
     mkWorld four_files_fs
       [EvMkdir (of_string "/data/ckpt/config.json/sub")]).
Proof.
  apply (get_checkpoint_blocked_by_file demo_environ demo_hub
           (steady_server 100) (Some (PStr "/data/ckpt/config.json/sub"))
           (mkWorld four_files_fs [])).
  - by apply (bool_decide_unpack _); vm_compute.
  - reflexivity.
  - apply Exists_cons. left. reflexivity.
Defined.

Lemma get_checkpoint_artifact_is_directory_witness :
  exists w',
    get_checkpoint demo_environ demo_hub (steady_server 100)
      (Some (PStr "/data/ckpt")) true (mkWorld squatted_fs [])
    = (Raise IsADirectoryError, w') /\
    fs w' !! (demo_dir </> "pytorch_model.bin") = Some (File (sample 100)) /\
    fs w' !! (demo_dir </> "tokenizer.json") = None /\
    requests (trace w')
    = download_url <$> ["config.json"; "pytorch_model.bin";
                        "special_tokens_map.json"].
Proof.
  destruct (get_checkpoint_artifact_is_directory demo_environ demo_hub
              (steady_server 100) (Some (PStr "/data/ckpt"))
              (mkWorld squatted_fs [])
              ["config.json"; "pytorch_model.bin"] "special_tokens_map.json"
              ["tokenizer.json"; "tokenizer_config.json"])
    as (w' & Hrun & Hfs & _ & Hreq).
  - reflexivity.
  - reflexivity.
  - vm_compute. lia.
  - repeat constructor.
  - reflexivity.
  - repeat constructor.
  - vm_compute. lia.
  - exists w'. split; [exact Hrun|]. rewrite Hfs.
    split; [reflexivity|]. split; [reflexivity|exact Hreq].
Defined.

Lemma get_checkpoint_short_payloads_witness :
  exists w1,
    get_checkpoint demo_environ demo_hub not_found_server
      (Some (PStr "/data/ckpt")) true (mkWorld empty_dir_fs [])
    = (Ok demo_dir, w1) /\
    fs w1 = empty_dir_fs /\
    exists w2,
      get_checkpoint demo_environ demo_hub not_found_server
        (Some (PStr "/data/ckpt")) true w1
      = (Ok demo_dir, w2) /\
      requests (drop (length (trace w1)) (trace w2)) = download_url <$> files.
Proof.
  destruct (get_checkpoint_short_payloads demo_environ demo_hub
              not_found_server (Some (PStr "/data/ckpt"))
              (mkWorld empty_dir_fs []))
    as (w1 & Hrun1 & Hfs1 & _ & w2 & Hrun2 & _ & Hreq2).
  - reflexivity.
  - vm_compute. lia.
  - repeat constructor.
  - repeat constructor; vm_compute; lia.
  - exists w1. split; [exact Hrun1|]. split; [exact Hfs1|].
    exists w2. split; [exact Hrun2|exact Hreq2].
Defined.

(* ===================================================================== *)
(** * The checkpoint adapter: further properties                          *)
(* ===================================================================== *)

Section AdapterMore.

Import Train.

Context (unpickle : bytes -> option checkpoint).

(** X7. [load_checkpoint] only reads: however it ends, the file system is
    as it was, and it has issued no request, written no file and made no
    directory; at most it has printed its one line. *)
Theorem load_checkpoint_reads_only path w :
  let out := load_checkpoint unpickle path w in
  fs out.2 = fs w /\
  (trace out.2 = trace w \/
   exists line, trace out.2 = (trace w ++ [EvPrint line])%list).
Proof.
  cbv zeta. rewrite load_checkpoint_run. cbv zeta.
  destruct (FS.is_file (fs w) (Path_new path)).
  - destruct (torch_load unpickle _ w).1 as [ckpt|e];
      [|split; [done|right; by eexists]].
    destruct (bool_decide _); [split; [done|right; by eexists]|].
    destruct (torch_load unpickle _ w).1;
      (split; [done|right; by eexists]).
  - destruct (torch_load unpickle _ w).1 as [ckpt|e]; [|by split; [|left]].
    destruct (torch_load unpickle _ w).1; by split; [|left].
Qed.

(** X8. [load_checkpoint] returns every entry of the mapping it loaded,
    other than ["state_dict"], as it was loaded. For a directory the
    ["state_dict"] of [artifacts.ckpt], if it has one, is replaced by the
    weights of [pytorch_model.bin]; for a regular file an existing
    ["state_dict"] is kept. *)
Theorem load_checkpoint_other_entries path w r w' :
  load_checkpoint unpickle path w = (Ok r, w') ->
  let p := Path_new path in
  exists loaded,
    (torch_load unpickle
       (if FS.is_file (fs w) p then p else p </> "artifacts.ckpt") w).1
    = Ok loaded /\
    (forall k, k <> "state_dict" -> r !! k = loaded !! k) /\
    (FS.is_file (fs w) p = true -> is_Some (loaded !! "state_dict") ->
       r !! "state_dict" = loaded !! "state_dict") /\
    (FS.is_file (fs w) p = false ->
       exists weights,
         (torch_load unpickle (p </> "pytorch_model.bin") w).1 = Ok weights /\
         r !! "state_dict" = Some (PyDict (prefix_keys weights))).
Proof.
  intros Hrun p. rewrite load_checkpoint_run in Hrun. cbv zeta in Hrun.
  fold p in Hrun. destruct (FS.is_file (fs w) p).
  - destruct (torch_load unpickle p w).1 as [ckpt|e]; [|done].
    exists ckpt. split; [done|].
    destruct (bool_decide ("state_dict" ∈ dom ckpt)) eqn:Ek.
    + injection Hrun as <- <-. by repeat split.
    + apply bool_decide_eq_false in Ek. rewrite elem_of_dom in Ek.
      destruct (torch_load unpickle (parent p </> _) w).1 as [weights|e];
        [|done].
      injection Hrun as <- <-. split; [|split; [|done]].
      * intros k Hk. by rewrite lookup_insert_ne.
      * intros _ Hsome. by destruct Ek.
  - destruct (torch_load unpickle (p </> "artifacts.ckpt") w).1
      as [ckpt|e]; [|done].
    destruct (torch_load unpickle (p </> "pytorch_model.bin") w).1
      as [weights|e]; [|done].
    injection Hrun as <- <-. exists ckpt. split; [done|].
    split; [|split; [done|]].
    + intros k Hk. by rewrite lookup_insert_ne.
    + intros _. exists weights. split; [done|]. apply lookup_insert_eq.
Qed.

(** X9. What [load_checkpoint] accepts. It returns normally exactly when
    either the path is a regular file that loads and whose mapping has a
    ["state_dict"] or has [pytorch_model.bin] loading next to it, or the
    path is not a regular file and both [artifacts.ckpt] and
    [pytorch_model.bin] load from inside it. In particular a file that
    carries its own ["state_dict"] needs no [pytorch_model.bin]. *)
Theorem load_checkpoint_accepts path w :
  let p := Path_new path in
  (exists r w', load_checkpoint unpickle path w = (Ok r, w')) <->
  (FS.is_file (fs w) p = true /\
   exists ckpt, (torch_load unpickle p w).1 = Ok ckpt /\
     (is_Some (ckpt !! "state_dict") \/
      exists weights,
        (torch_load unpickle (parent p </> "pytorch_model.bin") w).1
        = Ok weights)) \/
  (FS.is_file (fs w) p = false /\
   exists ckpt weights,
     (torch_load unpickle (p </> "artifacts.ckpt") w).1 = Ok ckpt /\
     (torch_load unpickle (p </> "pytorch_model.bin") w).1 = Ok weights).
Proof.
  intros p. rewrite load_checkpoint_run. cbv zeta. fold p.
  destruct (FS.is_file (fs w) p).
  - destruct (torch_load unpickle p w).1 as [ckpt|e].
    + destruct (bool_decide ("state_dict" ∈ dom ckpt)) eqn:Ek.
      * apply bool_decide_eq_true in Ek. apply elem_of_dom in Ek.
        split; [|by eexists _, _]. intros _. left. split; [done|].
        exists ckpt. split; [done|by left].
      * apply bool_decide_eq_false in Ek. rewrite elem_of_dom in Ek.
        destruct (torch_load unpickle (parent p </> _) w).1
          as [weights|e] eqn:Ew.
        -- split; [|by eexists _, _]. intros _. left. split; [done|].
           exists ckpt. split; [done|]. right. by exists weights.
        -- split; [by intros (r & w' & H)|].
           intros [(_ & c & [= <-] & [H|(weights & H)])|(H & _)]; done.
    + split; [by intros (r & w' & H)|].
      intros [(_ & c & H & _)|(H & _)]; done.
  - destruct (torch_load unpickle (p </> "artifacts.ckpt") w).1
      as [ckpt|e].
    + destruct (torch_load unpickle (p </> "pytorch_model.bin") w).1
        as [weights|e].
      * split; [|by eexists _, _]. intros _. right. split; [done|].
        by exists ckpt, weights.
      * split; [by intros (r & w' & H)|].
        intros [(H & _)|(_ & c & wt & _ & H)]; done.
    + split; [by intros (r & w' & H)|].
      intros [(H & _)|(_ & c & wt & H & _)]; done.
Qed.

(** X10. On a well-formed file system, a path that does not exist and has
    no regular file among its ancestors is rejected with
    [FileNotFoundError], raised by the load of [artifacts.ckpt]; nothing is
    printed and nothing changes. *)
Theorem load_checkpoint_missing_path path w :
  let p := Path_new path in
  FS.wf (fs w) ->
  FS.exists_ (fs w) p = false ->
  Forall (fun q => FS.is_file (fs w) q = false) (FS.ancestors p) ->
  load_checkpoint unpickle path w = (Raise FileNotFoundError, w).
Proof.
  intros p Hwf Hmiss Hfree. rewrite load_checkpoint_run. cbv zeta. fold p.
  assert (Hnf : FS.is_file (fs w) p = false).
  { destruct (FS.is_file (fs w) p) eqn:E; [|done].
    by rewrite (is_file_exists _ _ E) in Hmiss. }
  rewrite Hnf.
  assert (Hplain : plain_name "artifacts.ckpt") by reflexivity.
  assert (Hload : (torch_load unpickle (p </> "artifacts.ckpt") w).1
                  = Raise FileNotFoundError).
  { unfold torch_load. run.
    pose proof (wf_nothing_below _ _ _ Hwf Hplain Hmiss) as Hnone.
    unfold FS.node_at. pose proof (parts_truediv p _ Hplain) as Hparts.
    destruct (parts (p </> "artifacts.ckpt")) eqn:Ep; [done|].
    rewrite Hnone. simpl. unfold FS.lookup_error.
    replace (existsb _ _) with false; [done|].
    symmetry. apply not_true_is_false. intros H.
    apply existsb_exists in H as (q & Hq & Hf).
    unfold FS.ancestors in Hq. rewrite (truediv_plain _ _ Hplain) in Hq.
    cbn [anchor parts] in Hq. rewrite rev_app_distr in Hq.
    cbn [rev app FS.up_from] in Hq. rewrite rev_involutive in Hq.
    destruct Hq as [<-|Hq].
    - replace (mkPath (anchor p) (parts p)) with p in Hf by by destruct p.
      by rewrite Hnf in Hf.
    - rewrite Forall_forall in Hfree. apply list_elem_of_In in Hq.
      unfold FS.ancestors in Hfree. by rewrite (Hfree q Hq) in Hf. }
  by rewrite Hload.
Qed.

(** X11. Prefixing the keys merges no two weights: the synthesized
    ["state_dict"] has as many entries as the weights mapping. *)
Theorem prefix_keys_size (d : checkpoint) : size (prefix_keys d) = size d.
Proof.
  unfold prefix_keys. induction d as [|k v d Hk IH] using map_ind.
  - by rewrite kmap_empty.
  - rewrite (kmap_insert (String.append "model.")).
    rewrite !map_size_insert_None; [by rewrite IH|done|].
    by rewrite (lookup_kmap (String.append "model.")).
Qed.

End AdapterMore.

Section RoundTrip.

Import Train.

Context (pickle : checkpoint -> bytes) (unpickle : bytes -> option checkpoint).

(** Writing where no directory is, inside a directory. *)
Lemma write_bytes_ok p data w :
  FS.is_dir (fs w) p = false ->
  FS.is_dir (fs w) (parent p) = true ->
  Path_write_bytes p data w =
  (Ok tt, mkWorld (<[p := File data]> (fs w)) (trace w ++ [EvWrite p data])).
Proof.
  intros Hnd Hpar. unfold Path_write_bytes. run. unfold FS.is_dir in *.
  destruct (FS.node_at (fs w) p) as [[]|]; try done.
  by destruct (FS.node_at (fs w) (parent p)) as [[]|].
Qed.

Lemma not_dir_has_parts f p : FS.is_dir f p = false -> parts p <> [].
Proof. unfold FS.is_dir, FS.node_at. by destruct (parts p). Qed.

(** X12. Saving then loading gives the checkpoint back. When the
    deserialiser inverts the serialiser on a checkpoint that has a
    ["state_dict"], and the path is inside a directory and is not itself a
    directory, [save_checkpoint] succeeds and [load_checkpoint] on the
    same path then returns that checkpoint, without consulting
    [pytorch_model.bin]. *)
Theorem save_then_load ckpt path w :
  let p := Path_new path in
  unpickle (pickle ckpt) = Some ckpt ->
  is_Some (ckpt !! "state_dict") ->
  FS.is_dir (fs w) p = false ->
  FS.is_dir (fs w) (parent p) = true ->
  exists w1 w2,
    save_checkpoint pickle ckpt path w = (Ok tt, w1) /\
    fs w1 = <[p := File (pickle ckpt)]> (fs w) /\
    load_checkpoint unpickle path w1 = (Ok ckpt, w2) /\
    fs w2 = fs w1.
Proof.
  intros p Hinv Hsd Hnd Hpar.
  pose proof (not_dir_has_parts _ _ Hnd) as Hparts.
  eexists _, _. split; [|split; [|split]].
  - unfold save_checkpoint, torch_save. fold p. by apply write_bytes_ok.
  - done.
  - rewrite load_checkpoint_run. cbv zeta. fold p. cbn [fs].
    assert (Hnode : FS.node_at (<[p := File (pickle ckpt)]> (fs w)) p
                    = Some (File (pickle ckpt))).
    { unfold FS.node_at. destruct (parts p); [done|]. apply lookup_insert_eq. }
    unfold FS.is_file. rewrite Hnode.
    unfold torch_load at 1. run. rewrite Hnode, Hinv. simpl.
    replace (bool_decide _) with true; [reflexivity|].
    symmetry. apply bool_decide_eq_true. by apply elem_of_dom.
  - done.
Qed.

End RoundTrip.

Lemma load_checkpoint_other_entries_witness :
  exists loaded,
    (Train.torch_load demo_unpickle (of_string "/run/last.ckpt")
       (mkWorld train_fs [])).1 = Ok loaded /\
    loaded !! "epoch" = Some (Train.PyInt 3).
Proof.
  assert (Hrun : Train.load_checkpoint demo_unpickle (PStr "/run/last.ckpt")
            (mkWorld train_fs [])
          = (Ok (<["state_dict" :=
                     Train.PyDict {[ "model.encoder.weight" :=
                                       Train.PyTensor [1%Z; 2%Z] ]}]>
                   ({[ "epoch" := Train.PyInt 3 ]} : Train.checkpoint)),
             mkWorld train_fs [EvPrint "path: /run/last.ckpt False"])).
  { vm_compute. reflexivity. }
  destruct (load_checkpoint_other_entries demo_unpickle _ _ _ _ Hrun)
    as (loaded & Hload & Hkeys & _).
  exists loaded. split; [exact Hload|].
  rewrite <- (Hkeys "epoch"); [reflexivity|discriminate].
Defined.

Lemma load_checkpoint_missing_path_witness :
  Train.load_checkpoint demo_unpickle (PStr "/nowhere/ckpt")
    (mkWorld train_fs [])
  = (Raise FileNotFoundError, mkWorld train_fs []).
Proof.
  apply (load_checkpoint_missing_path demo_unpickle (PStr "/nowhere/ckpt")
           (mkWorld train_fs [])).
  - by apply (bool_decide_unpack _); vm_compute.
  - reflexivity.
  - repeat constructor.
Defined.

Lemma save_then_load_witness :
  exists w1 w2,
    Train.save_checkpoint demo_pickle full_checkpoint (PStr "/run/full.ckpt")
      (mkWorld train_fs []) = (Ok tt, w1) /\
    fs w1 = <[of_string "/run/full.ckpt" := File (sample 3)]> train_fs /\
    Train.load_checkpoint full_unpickle (PStr "/run/full.ckpt") w1
    = (Ok full_checkpoint, w2) /\
    fs w2 = fs w1.
Proof.
  apply (save_then_load demo_pickle full_unpickle full_checkpoint
           (PStr "/run/full.ckpt") (mkWorld train_fs [])).
  - reflexivity.
  - vm_compute. by eexists.
  - reflexivity.
  - reflexivity.
Defined.

(* ===================================================================== *)
(** * The driver: names and directories of a run                          *)
(* ===================================================================== *)

Section DriverNames.

Import Driver.

Lemma split_on_cons sep s : exists h t, split_on sep s = h :: t.
Proof.
  destruct s as [|c s]; simpl; [by eexists _, _|].
  destruct (Ascii.eqb c sep); [by eexists _, _|].
  destruct (split_on sep s); by eexists _, _.
Qed.

(** [(a + sep + b).split(sep) == a.split(sep) + b.split(sep)] *)
Lemma split_on_app sep a b :
  split_on sep (a ++ String sep b) = (split_on sep a ++ split_on sep b)%list.
Proof.
  induction a as [|c a IH]; simpl.
  - by rewrite Ascii.eqb_refl.
  - destruct (Ascii.eqb c sep); [by rewrite IH|].
    rewrite IH. by destruct (split_on_cons sep a) as (h & t & ->).
Qed.

Lemma split_on_free sep s : free_of sep s -> split_on sep s = [s].
Proof.
  unfold free_of. induction s as [|c s IH]; simpl; intros H; [done|].
  destruct (Ascii.eqb_spec c sep) as [->|Hne]; [exfalso; apply H; by left|].
  rewrite IH; [done|]. intros Hin. apply H. by right.
Qed.

Lemma split_on_pieces sep s piece :
  In piece (split_on sep s) ->
  free_of sep piece /\
  forall c, In c (list_ascii_of_string piece) ->
            In c (list_ascii_of_string s).
Proof.
  unfold free_of. revert piece.
  induction s as [|c s IH]; simpl; intros piece Hin.
  - destruct Hin as [<-|[]]. simpl. split; [tauto|done].
  - destruct (Ascii.eqb_spec c sep) as [->|Hne].
    + destruct Hin as [<-|Hin]; [simpl; split; [tauto|done]|].
      destruct (IH _ Hin) as [H1 H2]. split; [done|]. intros x Hx.
      right. by apply H2.
    + destruct (split_on_cons sep s) as (h & t & E). rewrite E in *.
      destruct Hin as [<-|Hin].
      * destruct (IH h (or_introl eq_refl)) as [H1 H2]. simpl. split.
        -- intros [->|Hc]; [done|by apply H1].
        -- intros x [<-|Hx]; [by left|right; by apply H2].
      * destruct (IH piece (or_intror Hin)) as [H1 H2]. split; [done|].
        intros x Hx. right. by apply H2.
Qed.

Lemma basename_in p : In (basename p) (split_on "/" p).
Proof.
  unfold basename. destruct (split_on_cons "/" p) as (h & t & ->).
  destruct (exists_last (l := h :: t)) as (l' & x & E); [done|].
  rewrite E. rewrite List.last_last. apply in_or_app. right. by left.
Qed.

Lemma derived_in p : In (derived_exp_name p) (split_on "." (basename p)).
Proof.
  unfold derived_exp_name.
  destruct (split_on_cons "." (basename p)) as (h & t & ->). by left.
Qed.

(** X13. The experiment name derived from the path of the configuration
    file is a plain name whatever that path is: it contains neither a dot
    nor a slash. *)
Theorem derived_exp_name_plain config_path :
  free_of "." (derived_exp_name config_path) /\
  free_of "/" (derived_exp_name config_path).
Proof.
  destruct (split_on_pieces _ _ _ (derived_in config_path)) as [Hdot Hsub].
  destruct (split_on_pieces _ _ _ (basename_in config_path)) as [Hslash _].
  split; [done|]. intros H. apply Hslash. by apply Hsub.
Qed.

Lemma chars_app a b :
  list_ascii_of_string (a ++ b)
  = (list_ascii_of_string a ++ list_ascii_of_string b)%list.
Proof. induction a as [|c a IH]; simpl; [done|]. by rewrite IH. Qed.

Lemma free_of_app c a b : free_of c a -> free_of c b -> free_of c (a ++ b).
Proof.
  unfold free_of. rewrite chars_app. intros Ha Hb H.
  apply in_app_or in H as [H|H]; auto.
Qed.

Lemma basename_after_slash dir rest :
  free_of "/" rest -> basename (dir ++ String "/" rest) = rest.
Proof.
  intros H. unfold basename. rewrite split_on_app, (split_on_free _ _ H).
  apply List.last_last.
Qed.

Lemma stem_before_dot name ext :
  free_of "." name ->
  List.hd EmptyString (split_on "." (name ++ String "." ext)) = name.
Proof.
  intros H. by rewrite split_on_app, (split_on_free _ _ H).
Qed.

(** X14. For a configuration file [name.ext], in a directory or not, the
    derived experiment name is [name], provided [name] has neither dot nor
    slash and [ext] has no slash. With no dot in the file name at all the
    whole file name is the experiment name. *)
Theorem derived_exp_name_stem dir name ext :
  free_of "." name -> free_of "/" name -> free_of "/" ext ->
  derived_exp_name (dir ++ "/" ++ name ++ "." ++ ext) = name /\
  derived_exp_name (name ++ "." ++ ext) = name /\
  derived_exp_name (dir ++ "/" ++ name) = name /\
  derived_exp_name name = name.
Proof.
  intros Hdot Hslash Hext.
  assert (Hfile : free_of "/" (name ++ String "." ext)).
  { apply free_of_app; [done|]. unfold free_of in *. simpl.
    intros [H|H]; [discriminate|done]. }
  assert (Hbase : forall x, free_of "/" x -> basename x = x).
  { intros x Hx. unfold basename. by rewrite (split_on_free _ _ Hx). }
  unfold derived_exp_name. repeat split.
  - change (dir ++ "/" ++ name ++ "." ++ ext)
      with (dir ++ String "/" (name ++ String "." ext)).
    rewrite basename_after_slash by done. by apply stem_before_dot.
  - change (name ++ "." ++ ext) with (name ++ String "." ext).
    rewrite Hbase by done. by apply stem_before_dot.
  - change (dir ++ "/" ++ name) with (dir ++ String "/" name).
    rewrite basename_after_slash by done. by rewrite split_on_free.
  - rewrite Hbase by done. by rewrite split_on_free.
Qed.

Lemma truediv_empty p : p </> "" = p.
Proof. unfold truediv. simpl. rewrite app_nil_r. by destruct p. Qed.

(** X15. A configuration file whose name starts with a dot gives the empty
    experiment name; with no name configured the run directory is then
    [result_path / exp_version], one level short. *)
Theorem hidden_config_has_no_name result_path config_path rest now version :
  basename config_path = String "." rest ->
  derived_exp_name config_path = "" /\
  exp_name None config_path = "" /\
  exp_name (Some "") config_path = "" /\
  run_dir result_path None config_path now version
  = of_string result_path </> exp_version now version.
Proof.
  intros Hbase.
  assert (Hd : derived_exp_name config_path = "").
  { unfold derived_exp_name. rewrite Hbase. simpl. done. }
  unfold run_dir, exp_name. simpl. rewrite Hd.
  by rewrite truediv_empty.
Qed.

(** X16. An [--exp_version] that is an absolute path takes over: the run
    directory is that path, whatever the result path and the experiment
    name are. *)
Theorem absolute_version_takes_over result_path configured config_path now v :
  v <> "" -> splitroot v <> Relative ->
  run_dir result_path configured config_path now (Some v) = of_string v.
Proof.
  intros Hne Habs. unfold run_dir, exp_version.
  replace (String.eqb v "") with false
    by (symmetry; by apply String.eqb_neq).
  unfold truediv at 1. cbn [anchor of_string].
  by destruct (splitroot v).
Qed.

End DriverNames.

Lemma derived_exp_name_stem_witness :
  Driver.derived_exp_name "config/train_nougat.yaml" = "train_nougat".
Proof.
  refine (proj1 (derived_exp_name_stem "config" "train_nougat" "yaml"
                   _ _ _)); vm_compute; intuition discriminate.
Defined.

Lemma hidden_config_has_no_name_witness :
  Driver.derived_exp_name "config/.hidden.yaml" = "" /\
  Driver.run_dir "result" None "config/.hidden.yaml" "20240101_120000" None
  = of_string "result/20240101_120000".
Proof.
  destruct (hidden_config_has_no_name "result" "config/.hidden.yaml"
              "hidden.yaml" "20240101_120000" None eq_refl)
    as (Hd & _ & _ & Hrun).
  split; [exact Hd|]. rewrite Hrun. reflexivity.
Defined.

Lemma absolute_version_takes_over_witness :
  Driver.run_dir "result" (Some "nougat") "config/train.yaml"
    "20240101_120000" (Some "/tmp/x")
  = of_string "/tmp/x".
Proof.
  apply (absolute_version_takes_over "result" (Some "nougat")
           "config/train.yaml" "20240101_120000" "/tmp/x");
    vm_compute; discriminate.
Defined.

(* ===================================================================== *)
(** * The driver: saving the configuration                                *)
(* ===================================================================== *)

Section SaveConfigContract.

Import Driver.

Context (dumps dumps_plain : string).

Lemma makedirs_makes a rparts f tr :
  FS.wf f ->
  FS.node_at f (mkPath a (rev rparts)) = None ->
  Forall (fun q => FS.is_file f q = false) (FS.up_from a rparts) ->
  makedirs a rparts (mkWorld f tr)
  = (Ok tt, mkWorld (with_dirs a rparts f) tr).
Proof.
  intros Hwf. induction rparts as [|x up IH]; intros Hnone Hfree; [done|].
  set (self := mkPath a (rev (x :: up))) in *.
  pose proof (parent_rev a x up) as Hpar. fold self in Hpar.
  cbn [FS.up_from] in Hfree. apply Forall_cons in Hfree as [Hhead Hfree].
  cbn [makedirs]. fold self.
  assert (Hlast : forall g tr',
    FS.is_dir g (mkPath a (rev up)) = true -> FS.node_at g self = None ->
    os_mkdir self (mkWorld g tr')
    = (Ok tt, mkWorld (<[self := Dir]> g) tr')).
  { intros g tr' Hd Hn. rewrite os_mkdir_fresh; [done|done|].
    simpl. by rewrite Hpar. }
  destruct (head_is_empty a up) eqn:Eh.
  - destruct a, up; try done. cbn [negb]. unfold bind at 1. unfold ret at 1.
    cbv beta iota. by rewrite Hlast.
  - cbn [negb]. unfold bind at 1.
    rewrite (bind_ok _ _ (mkWorld f tr)
               (FS.exists_ f (mkPath a (rev up))) (mkWorld f tr)) by done.
    destruct (FS.exists_ f (mkPath a (rev up))) eqn:Ee; cbn [negb].
    + assert (Hd : FS.is_dir f (mkPath a (rev up)) = true).
      { unfold FS.exists_, FS.is_file, FS.is_dir in *.
        by destruct (FS.node_at f (mkPath a (rev up))) as [[]|]. }
      unfold ret at 1. cbv beta iota. rewrite Hlast by done.
      cbn [with_dirs]. by rewrite with_dirs_id.
    + assert (Hn : FS.node_at f (mkPath a (rev up)) = None).
      { unfold FS.exists_ in Ee.
        by destruct (FS.node_at f (mkPath a (rev up))). }
      unfold catch. rewrite IH by done. cbv beta iota.
      rewrite Hlast; [done| |].
      * unfold FS.is_dir. rewrite node_at_with_dirs.
        rewrite decide_True; [done|by left].
      * rewrite node_at_with_dirs. rewrite decide_False; [done|].
        intros Hin. change (self ∈ FS.up_from a (x :: up)) in Hin.
        apply up_from_shorter in Hin. unfold self in Hin. simpl in Hin.
        rewrite length_app, length_rev in Hin. simpl in Hin. lia.
Qed.

Lemma config_yaml_plain : plain_name "config.yaml".
Proof. reflexivity. Qed.

(** X17. On rank zero, for a path that does not exist on a well-formed
    file system and has no regular file among its ancestors,
    [save_config_file] creates the directory with every missing ancestor,
    prints the configuration, writes its plain rendering to [config.yaml]
    inside the directory and reports where; it returns normally. *)
Theorem save_config_file_creates path w :
  FS.wf (fs w) ->
  FS.exists_ (fs w) path = false ->
  Forall (fun q => FS.is_file (fs w) q = false) (FS.ancestors path) ->
  exists w',
    save_config_file 0 dumps dumps_plain path w = (Ok tt, w') /\
    FS.is_dir (fs w') path = true /\
    Forall (fun q => FS.is_dir (fs w') q = true) (FS.ancestors path) /\
    fs w' !! (path </> "config.yaml")
    = Some (File (list_byte_of_string dumps_plain)) /\
    trace w' =
      (trace w ++
       [EvPrint dumps;
        EvWrite (path </> "config.yaml") (list_byte_of_string dumps_plain);
        EvPrint ("Config is saved at "
                 ++ to_string (path </> "config.yaml"))])%list.
Proof.
  intros Hwf Hmiss Hfree. pose proof config_yaml_plain as Hplain.
  set (f1 := with_dirs (anchor path) (rev (parts path)) (fs w)).
  set (target := path </> "config.yaml").
  assert (Hnone : FS.node_at (fs w) path = None).
  { unfold FS.exists_ in Hmiss. by destruct (FS.node_at (fs w) path). }
  assert (Hd1 : FS.is_dir f1 path = true).
  { unfold FS.is_dir, f1. rewrite node_at_made.
    rewrite decide_True; [done|by left]. }
  assert (Hn1 : FS.is_dir f1 target = false).
  { unfold FS.is_dir, f1. rewrite node_at_made. rewrite decide_False.
    - fold (FS.is_dir (fs w) target). apply missing_not_dir; [done|].
      by apply wf_nothing_below.
    - intros Hin. by apply (truediv_not_in_lineage path "config.yaml") in Hin. }
  assert (Hmk : os_makedirs path w = (Ok tt, mkWorld f1 (trace w))).
  { unfold os_makedirs. destruct w as [f tr]. simpl in *.
    apply makedirs_makes; [done|by rewrite path_rev_eta|done]. }
  exists (mkWorld (<[target := File (list_byte_of_string dumps_plain)]> f1)
            (trace w ++
             [EvPrint dumps;
              EvWrite target (list_byte_of_string dumps_plain);
              EvPrint ("Config is saved at " ++ to_string target)])).
  split; [|split; [|split; [|split]]].
  - unfold save_config_file, save_config_file_body. cbn [Nat.eqb].
    rewrite (bind_ok _ _ w false w)
      by (unfold Path_exists; run; by rewrite Hmiss).
    cbn [negb]. rewrite (bind_ok _ _ w tt (mkWorld f1 (trace w))) by done.
    fold target.
    rewrite (bind_ok _ _ _ tt (mkWorld f1 (trace w ++ [EvPrint dumps])))
      by done.
    unfold write_text.
    rewrite (bind_ok _ _ _ tt
      (mkWorld (<[target := File (list_byte_of_string dumps_plain)]> f1)
         ((trace w ++ [EvPrint dumps]) ++
          [EvWrite target (list_byte_of_string dumps_plain)]))).
    + unfold print, log. simpl. by rewrite <- !app_assoc.
    + unfold target. by rewrite write_run.
  - cbn [fs]. unfold FS.is_dir. rewrite node_at_insert.
    + rewrite decide_False; [done|]. unfold target.
      by apply truediv_ne_self.
    + unfold FS.exists_, FS.node_at in Hmiss. by destruct (parts path).
  - cbn [fs]. apply Forall_forall. intros q Hq.
    rewrite is_dir_insert_ne.
    + unfold FS.is_dir, f1. rewrite node_at_made.
      rewrite decide_True; [done|by right].
    + apply truediv_not_in_lineage; [done|by right].
  - cbn [fs]. apply lookup_insert_eq.
  - done.
Qed.

(** X18. On rank zero, when the path is an existing regular file on a
    well-formed file system, [save_config_file] prints the configuration
    and then fails with [NotADirectoryError] on opening [config.yaml]; the
    file system is left as it was. *)
Theorem save_config_file_on_a_file path w :
  FS.wf (fs w) ->
  FS.is_file (fs w) path = true ->
  save_config_file 0 dumps dumps_plain path w
  = (Raise NotADirectoryError,
     logged w [EvPrint dumps;
               EvWrite (path </> "config.yaml")
                       (list_byte_of_string dumps_plain)]).
Proof.
  intros Hwf Hfile. pose proof config_yaml_plain as Hplain.
  pose proof (is_file_exists _ _ Hfile) as He.
  unfold save_config_file, save_config_file_body. cbn [Nat.eqb].
  rewrite (bind_ok _ _ w true w) by (unfold Path_exists; run; by rewrite He).
  cbn [negb]. rewrite (bind_ok _ _ w tt w) by done.
  rewrite (bind_ok _ _ _ tt (logged w [EvPrint dumps])) by done.
  apply bind_raise. unfold write_text, Path_write_bytes. run.
  rewrite (parent_truediv _ _ Hplain).
  assert (Hnone : FS.node_at (fs w) (path </> "config.yaml") = None).
  { destruct (FS.node_at (fs w) (path </> "config.yaml")) as [nd|] eqn:E;
      [|done].
    unfold FS.node_at in E. pose proof (parts_truediv path _ Hplain).
    destruct (parts (path </> "config.yaml")); [done|].
    destruct (Hwf _ _ E) as [_ Hd]. rewrite (parent_truediv _ _ Hplain) in Hd.
    by rewrite (is_dir_not_file _ _ Hd) in Hfile. }
  rewrite Hnone. unfold FS.is_file in Hfile.
  destruct (FS.node_at (fs w) path) as [[]|]; try done.
  unfold logged. simpl. by rewrite <- app_assoc.
Qed.

(** X19. On rank zero, when the path is a directory,
    [save_config_file] makes no directory: it prints the configuration and
    writes [config.yaml], replacing a file of that name, and nothing else
    in the file system changes. *)
Theorem save_config_file_in_directory path w :
  FS.is_dir (fs w) path = true ->
  FS.is_dir (fs w) (path </> "config.yaml") = false ->
  save_config_file 0 dumps dumps_plain path w
  = (Ok tt,
     mkWorld (<[path </> "config.yaml" :=
                  File (list_byte_of_string dumps_plain)]> (fs w))
       (trace w ++
        [EvPrint dumps;
         EvWrite (path </> "config.yaml") (list_byte_of_string dumps_plain);
         EvPrint ("Config is saved at "
                  ++ to_string (path </> "config.yaml"))])).
Proof.
  intros Hd Hn. pose proof config_yaml_plain as Hplain.
  unfold save_config_file, save_config_file_body. cbn [Nat.eqb].
  rewrite (bind_ok _ _ w true w)
    by (unfold Path_exists; run; by rewrite (is_dir_exists _ _ Hd)).
  cbn [negb]. rewrite (bind_ok _ _ w tt w) by done.
  rewrite (bind_ok _ _ _ tt (logged w [EvPrint dumps])) by done.
  unfold write_text.
  rewrite (bind_ok _ _ _ tt _
             (write_run _ _ _ (logged w [EvPrint dumps]) Hplain Hd Hn)).
  unfold print, log, logged. simpl. by rewrite <- !app_assoc.
Qed.

(** X20. On any rank and however it ends, [save_config_file] keeps a
    well-formed file system well formed, and removes or alters no entry
    other than [config.yaml] inside the path; on a rank other than zero it
    does nothing at all. *)
Theorem save_config_file_frame rank path w :
  let out := save_config_file rank dumps dumps_plain path w in
  (FS.wf (fs w) -> FS.wf (fs out.2)) /\
  (forall q nd, q <> path </> "config.yaml" ->
     fs w !! q = Some nd -> fs out.2 !! q = Some nd) /\
  (rank <> 0 -> out = (Ok tt, w)).
Proof.
  cbv zeta.
  assert (Hgen : forall R : World -> World -> Prop,
    (forall v, R v v) ->
    (forall w1 w2 w3, R w1 w2 -> R w2 w3 -> R w1 w3) ->
    (forall p, respects R (os_mkdir p)) ->
    (forall e, respects R (log e)) ->
    (forall d, respects R (Path_write_bytes (path </> "config.yaml") d)) ->
    respects R (save_config_file rank dumps dumps_plain path)).
  { intros R Hrefl Htrans Hmk Hlog Hwr.
    unfold save_config_file. destruct (rank =? 0)%nat;
      [|by apply respects_ret].
    unfold save_config_file_body, os_makedirs, write_text, print.
    apply (respects_bind R Htrans); [by apply respects_exists|]. intros e.
    apply (respects_bind R Htrans).
    { destruct (negb e); [by apply respects_makedirs|by apply respects_ret]. }
    intros _. apply (respects_bind R Htrans); [apply Hlog|]. intros _.
    apply (respects_bind R Htrans); [apply Hwr|]. intros _. apply Hlog. }
  split; [|split].
  - apply (Hgen stays_wf).
    + apply stays_wf_refl.
    + apply stays_wf_trans.
    + apply stays_wf_os_mkdir.
    + apply stays_wf_log.
    + intros d. apply stays_wf_write.
  - apply (Hgen (keeps_outside (fun q => q = path </> "config.yaml"))).
    + apply keeps_outside_refl.
    + apply keeps_outside_trans.
    + apply keeps_outside_os_mkdir.
    + apply keeps_outside_log.
    + intros d. by apply keeps_outside_write.
  - intros Hr. unfold save_config_file.
    by replace (rank =? 0)%nat with false by (symmetry; by apply Nat.eqb_neq).
Qed.

End SaveConfigContract.

Lemma save_config_file_creates_witness :
  exists w',
    Driver.save_config_file 0 "seed: 42" "seed: 42"
      (of_string "/out/nougat/v1") (mkWorld train_fs [])
    = (Ok tt, w') /\
    FS.is_dir (fs w') (of_string "/out/nougat/v1") = true /\
    FS.is_dir (fs w') (of_string "/out") = true /\
    fs w' !! of_string "/out/nougat/v1/config.yaml"
    = Some (File (list_byte_of_string "seed: 42")).
Proof.
  destruct (save_config_file_creates "seed: 42" "seed: 42"
              (of_string "/out/nougat/v1") (mkWorld train_fs []))
    as (w' & Hrun & Hdir & Hup & Hfile & _).
  - by apply (bool_decide_unpack _); vm_compute.
  - reflexivity.
  - repeat constructor.
  - exists w'. split; [exact Hrun|]. split; [exact Hdir|]. split.
    + apply Forall_cons in Hup as [_ Hup].
      apply Forall_cons in Hup as [H _]. exact H.
    + exact Hfile.
Defined.

Lemma save_config_file_on_a_file_witness :
  Driver.save_config_file 0 "seed: 42" "seed: 42"
    (of_string "/run/last.ckpt") (mkWorld train_fs [])
  = (Raise NotADirectoryError,
     mkWorld train_fs
       [EvPrint "seed: 42";
        EvWrite (of_string "/run/last.ckpt/config.yaml")
                (list_byte_of_string "seed: 42")]).
Proof.
  apply (save_config_file_on_a_file "seed: 42" "seed: 42"
           (of_string "/run/last.ckpt") (mkWorld train_fs [])).
  - by apply (bool_decide_unpack _); vm_compute.
  - reflexivity.
Defined.

Lemma save_config_file_in_directory_witness :
  Driver.save_config_file 0 "seed: 42" "seed: 42" (of_string "/run")
    (mkWorld train_fs [])
  = (Ok tt,
     mkWorld (<[of_string "/run/config.yaml" :=
                  File (list_byte_of_string "seed: 42")]> train_fs)
       [EvPrint "seed: 42";
        EvWrite (of_string "/run/config.yaml")
                (list_byte_of_string "seed: 42");
        EvPrint "Config is saved at /run/config.yaml"]).
Proof.
  apply (save_config_file_in_directory "seed: 42" "seed: 42"
           (of_string "/run") (mkWorld train_fs [])); reflexivity.
Defined.

Lemma save_config_file_frame_witness :
  Driver.save_config_file 1 "seed: 42" "seed: 42" (of_string "/run")
    (mkWorld train_fs [])
  = (Ok tt, mkWorld train_fs []).
Proof.
  apply (proj2 (proj2 (save_config_file_frame "seed: 42" "seed: 42" 1
                         (of_string "/run") (mkWorld train_fs [])))).
  discriminate.
Defined.

(* ===================================================================== *)
(** * What a fetch pass does, seen from [get_checkpoint]                   *)
(* ===================================================================== *)

Section FetchPass.

Context (environ : gmap string string) (hub_dir : string)
        (server : string -> Reply).

(** In a well-formed file system no regular file is above a directory. *)
Lemma dir_lineage_free f c :
  FS.wf f -> FS.is_dir f c = true ->
  Forall (fun q => FS.is_file f q = false) (c :: FS.ancestors c).
Proof.
  intros Hwf Hd. constructor; [by apply is_dir_not_file|].
  unfold FS.ancestors.
  eapply Forall_impl;
    [apply (wf_lineage_dirs f (anchor c) (rev (parts c)) Hwf);
     by rewrite path_rev_eta|].
  intros q Hq. by apply is_dir_not_file.
Qed.

(** The pass announces itself, then requests the first artifact, whatever
    the server does. *)
Lemma download_checkpoint_first_request c w :
  exists evs,
    trace (download_checkpoint server c w).2
    = (trace w ++ banner c :: EvGet (download_url "config.json") :: evs)%list.
Proof.
  rewrite download_checkpoint_run.
  change files with ("config.json" :: tl files). cbn [for_each].
  unfold bind.
  destruct (turn_trace server c "config.json" (logged w [banner c]))
    as (evs & Ht & _).
  destruct (download_file server c "config.json" (logged w [banner c]))
    as [[[]|e] w1]; simpl in Ht.
  - cbv beta iota.
    match goal with
    | |- context [for_each ?l _ w1] =>
        destruct (pass_trace server c l w1) as (evs' & k & Hevs' & _)
    end.
    exists (evs ++ evs')%list. rewrite Hevs', Ht.
    by rewrite <- !app_assoc.
  - exists evs. simpl. rewrite Ht. by rewrite <- app_assoc.
Qed.

(** The same seen from the pass as a whole, when the directory can be
    made. *)
Lemma fetch_pass_first_request c w :
  FS.wf (fs w) ->
  Forall (fun q => FS.is_file (fs w) q = false) (c :: FS.ancestors c) ->
  exists evs,
    trace (fetch_pass server c w).2
    = (trace w ++ EvMkdir c :: banner c ::
         EvGet (download_url "config.json") :: evs)%list.
Proof.
  intros Hwf Hfree. rewrite fetch_pass_run.
  rewrite (bind_ok _ _ w tt _ (mkdir_makes c w Hwf Hfree)).
  match goal with
  | |- context [download_checkpoint server c ?v] =>
      destruct (download_checkpoint_first_request c v) as [evs Hevs];
      destruct (download_checkpoint server c v) as [[[]|e] w2]
  end; exists evs; simpl in *; rewrite Hevs; by rewrite <- app_assoc.
Qed.

(** A pass that meets no obstacle: the directory is made with its
    ancestors, every artifact is requested and every long payload
    stored. *)
Lemma fetch_pass_completes c w :
  FS.wf (fs w) ->
  Forall (fun q => FS.is_file (fs w) q = false) (c :: FS.ancestors c) ->
  Forall (fun g => FS.is_dir (fs w) (c </> g) = false) files ->
  Forall (fun g => fetch_error server g = None) files ->
  fetch_pass server c w =
  (Ok c,
   mkWorld (foldl (store server c)
              (with_dirs (anchor c) (rev (parts c)) (fs w)) files)
     (trace w ++ EvMkdir c :: banner c ::
        concat (turn_events server c <$> files))).
Proof.
  intros Hwf Hfree Hn He. pose proof files_all_plain as Hp.
  set (f1 := with_dirs (anchor c) (rev (parts c)) (fs w)).
  assert (Hd1 : FS.is_dir f1 c = true).
  { unfold FS.is_dir, f1. rewrite node_at_made.
    rewrite decide_True; [done|by left]. }
  assert (Hn1 : Forall (fun g => FS.is_dir f1 (c </> g) = false) files).
  { rewrite Forall_forall in Hp, Hn. apply Forall_forall. intros g Hg.
    unfold FS.is_dir, f1. rewrite node_at_made. rewrite decide_False.
    - by apply Hn.
    - intros Hin. by apply (truediv_not_in_lineage c g) in Hin; auto. }
  rewrite fetch_pass_run.
  rewrite (bind_ok _ _ w tt _ (mkdir_makes c w Hwf Hfree)).
  rewrite download_checkpoint_run, pass_succeeds; try done.
  simpl. by rewrite <- !app_assoc.
Qed.

Lemma requests_of_pass c :
  requests (EvMkdir c :: banner c :: concat (turn_events server c <$> files))
  = download_url <$> files.
Proof.
  change (EvMkdir c :: banner c :: ?l) with ([EvMkdir c; banner c] ++ l)%list.
  rewrite requests_app. apply requests_turns.
Qed.

(** C1. With downloading enabled, on a well-formed file system, the
    fetch-and-populate pass is run on the resolved directory exactly when
    that directory does not exist or lists fewer than five entries;
    otherwise the resolved path is returned and the world, trace of
    requests included, is left as it was. The pass is the real one: when
    no regular file stands above the directory, a request is issued
    exactly in that case, the first one for [config.json] right after the
    [mkdir] and the announcement; and when moreover every download
    succeeds and no artifact name is taken by a directory, the call
    returns the directory, has requested the five artifacts in order and
    has stored every payload longer than 15 bytes. *)
Theorem fetch_iff_missing_or_incomplete cp w :
  FS.wf (fs w) ->
  let c := resolved (fs w) (initial_checkpoint environ hub_dir cp) in
  let out := get_checkpoint environ hub_dir server cp true w in
  let incomplete :=
    FS.exists_ (fs w) c = false \/ length (FS.listdir (fs w) c) < 5 in
  let issued := requests (drop (length (trace w)) (trace out.2)) in
  ((exists evs, trace out.2 = (trace w ++ EvMkdir c :: evs)%list) <->
   incomplete) /\
  (~ incomplete -> out = (Ok c, w)) /\
  (Forall (fun q => FS.is_file (fs w) q = false) (FS.ancestors c) ->
   (issued <> [] <-> incomplete) /\
   (incomplete ->
    exists evs,
      trace out.2
      = (trace w ++ EvMkdir c :: banner c ::
           EvGet (download_url "config.json") :: evs)%list) /\
   (incomplete ->
    Forall (fun g => fetch_error server g = None) files ->
    Forall (fun g => FS.is_dir (fs w) (c </> g) = false) files ->
    out = (Ok c,
           mkWorld (foldl (store server c)
                      (with_dirs (anchor c) (rev (parts c)) (fs w)) files)
             (trace w ++ EvMkdir c :: banner c ::
                concat (turn_events server c <$> files))) /\
    issued = download_url <$> files /\
    forall file, file ∈ files -> 15 < length (payload server file) ->
      fs out.2 !! (c </> file) = Some (File (payload server file)))).
Proof.
  intros Hwf c out incomplete issued.
  assert (Hout : out = if negb (FS.exists_ (fs w) c)
                          || (length (FS.listdir (fs w) c) <? 5)%nat
                       then fetch_pass server c w else (Ok c, w)).
  { unfold out. by rewrite get_checkpoint_download. }
  assert (Hdec : (negb (FS.exists_ (fs w) c)
                  || (length (FS.listdir (fs w) c) <? 5)%nat) = true
                 <-> incomplete).
  { unfold incomplete. rewrite orb_true_iff, negb_true_iff, Nat.ltb_lt.
    done. }
  destruct (negb (FS.exists_ (fs w) c)
            || (length (FS.listdir (fs w) c) <? 5)%nat) eqn:Eb.
  - assert (Hinc : incomplete) by by apply Hdec.
    split; [|split].
    + split; [done|]. intros _. rewrite Hout. apply fetch_pass_starts.
    + intros H. by destruct H.
    + intros Hfree.
      assert (Hfree' : Forall (fun q => FS.is_file (fs w) q = false)
                         (c :: FS.ancestors c)).
      { constructor; [by apply resolved_not_file|done]. }
      destruct (fetch_pass_first_request c w Hwf Hfree') as [evs Hevs].
      split; [|split].
      * split; [done|]. intros _. unfold issued. rewrite Hout, Hevs.
        rewrite drop_app_length. done.
      * intros _. exists evs. by rewrite Hout.
      * intros _ He Hn.
        assert (Hrun := fetch_pass_completes c w Hwf Hfree' Hn He).
        unfold issued. rewrite Hout, Hrun. split; [done|]. split.
        -- cbn [snd trace]. rewrite drop_app_length. apply requests_of_pass.
        -- intros file Hin Hbig. cbn [snd fs].
           apply stored_written; [apply files_all_plain| |done|by left].
           apply files_plain. by apply list_elem_of_In.
  - assert (Hinc : ~ incomplete).
    { intros H. apply Hdec in H. done. }
    assert (Hsame : issued = []).
    { unfold issued. rewrite Hout. simpl. by rewrite drop_all. }
    split; [|split].
    + split; [|done]. intros [evs H]. rewrite Hout in H. simpl in H.
      by apply not_self_extension in H.
    + done.
    + intros _. split; [split; [by rewrite Hsame|done]|split; done].
Qed.

(** C5. On a well-formed file system, when the path first determined is an
    existing regular file, its parent directory is the target: it is what a
    completed call returns and where the fetch-and-populate pass runs, and
    the pass runs exactly when downloading is enabled and the parent lists
    fewer than five entries; the file being there does not count as the
    checkpoint being there. The pass is the real one: a request is issued
    exactly in that case, the first one for [config.json] right after the
    [mkdir] on the parent and the announcement; and when every download
    succeeds and no artifact name in the parent is taken by a directory,
    the call returns the parent, has requested the five artifacts in order
    and has stored in the parent every payload longer than 15 bytes. *)
Theorem file_stands_for_parent cp download w :
  FS.wf (fs w) ->
  let c0 := initial_checkpoint environ hub_dir cp in
  FS.is_file (fs w) c0 = true ->
  let c := parent c0 in
  let out := get_checkpoint environ hub_dir server cp download w in
  let wanted := download = true /\ length (FS.listdir (fs w) c) < 5 in
  let issued := requests (drop (length (trace w)) (trace out.2)) in
  resolved (fs w) c0 = c /\
  (forall p, out.1 = Ok p -> p = c) /\
  ((exists evs, trace out.2 = (trace w ++ EvMkdir c :: evs)%list) <->
   wanted) /\
  (~ wanted -> out = (Ok c, w)) /\
  (issued <> [] <-> wanted) /\
  (wanted ->
   exists evs,
     trace out.2
     = (trace w ++ EvMkdir c :: banner c ::
          EvGet (download_url "config.json") :: evs)%list) /\
  (wanted ->
   Forall (fun g => fetch_error server g = None) files ->
   Forall (fun g => FS.is_dir (fs w) (c </> g) = false) files ->
   out = (Ok c,
          mkWorld (foldl (store server c) (fs w) files)
            (trace w ++ EvMkdir c :: banner c ::
               concat (turn_events server c <$> files))) /\
   issued = download_url <$> files /\
   forall file, file ∈ files -> 15 < length (payload server file) ->
     fs out.2 !! (c </> file) = Some (File (payload server file))).
Proof.
  intros Hwf c0 Hfile c out wanted issued.
  pose proof (resolved_file _ _ Hfile) as Hres. fold c in Hres.
  pose proof (wf_parent_dir _ _ Hwf Hfile) as Hd. fold c in Hd.
  assert (Hout : out = if download && (length (FS.listdir (fs w) c) <? 5)%nat
                       then fetch_pass server c w else (Ok c, w)).
  { unfold out. rewrite get_checkpoint_run. cbv zeta. fold c0. rewrite Hres.
    rewrite (is_dir_exists _ _ Hd), (is_dir_not_file _ _ Hd).
    by destruct download, (_ <? 5)%nat. }
  assert (Hdec : (download && (length (FS.listdir (fs w) c) <? 5)%nat) = true
                 <-> wanted).
  { unfold wanted. by rewrite andb_true_iff, Nat.ltb_lt. }
  split; [done|].
  destruct (download && (length (FS.listdir (fs w) c) <? 5)%nat) eqn:Eb.
  - assert (Hw : wanted) by by apply Hdec.
    destruct (fetch_pass_first_request c w Hwf (dir_lineage_free _ _ Hwf Hd))
      as [evs Hevs].
    split; [|split; [|split; [|split; [|split]]]].
    + rewrite Hout. apply fetch_pass_returns.
    + split; [done|]. intros _. rewrite Hout. apply fetch_pass_starts.
    + intros H. by destruct H.
    + split; [done|]. intros _. unfold issued. rewrite Hout, Hevs.
      rewrite drop_app_length. done.
    + intros _. exists evs. by rewrite Hout.
    + intros _ He Hn.
      assert (Hrun := fetch_pass_existing server c w Hd Hn He).
      unfold issued. rewrite Hout, Hrun. split; [done|]. split.
      * cbn [snd trace]. rewrite drop_app_length. apply requests_of_pass.
      * intros file Hin Hbig. cbn [snd fs].
        apply stored_written; [apply files_all_plain| |done|by left].
        apply files_plain. by apply list_elem_of_In.
  - assert (Hw : ~ wanted).
    { intros H. apply Hdec in H. done. }
    assert (Hsame : issued = []).
    { unfold issued. rewrite Hout. simpl. by rewrite drop_all. }
    split; [|split; [|split; [|split; [|split]]]].
    + rewrite Hout. by intros p [= <-].
    + split; [|done]. intros [evs H]. rewrite Hout in H. simpl in H.
      by apply not_self_extension in H.
    + done.
    + split; [by rewrite Hsame|done].
    + done.
    + done.
Qed.

Lemma nougat_suffix_not_empty (s : string) :
  String.eqb (s ++ "/nougat") "" = false.
Proof. by destruct s. Qed.

(** C9. An explicit argument that is the empty string is ignored. The
    call is the call without an explicit argument and, at the same time,
    the call whose explicit argument is the value of [NOUGAT_CHECKPOINT]
    when that is set (and not empty) or the framework default otherwise.
    Its target is that fallback path, an existing regular file standing
    for its parent: it is the only path the call can return, it is
    returned with the world untouched when downloading is disabled, and
    whatever the call does first, it is the [mkdir] on it. *)
Theorem empty_string_is_no_argument download w :
  let fallback :=
    of_string (default (hub_dir ++ "/nougat")
                       (environ !! "NOUGAT_CHECKPOINT")) in
  let target := resolved (fs w) fallback in
  let out :=
    get_checkpoint environ hub_dir server (Some (PStr "")) download w in
  out = get_checkpoint environ hub_dir server None download w /\
  initial_checkpoint environ hub_dir (Some (PStr "")) = fallback /\
  (forall p, out.1 = Ok p -> p = target) /\
  (download = false -> out = (Ok target, w)) /\
  (forall e evs, trace out.2 = (trace w ++ e :: evs)%list ->
     e = EvMkdir target) /\
  (forall v, environ !! "NOUGAT_CHECKPOINT" = Some v -> v <> "" ->
     out = get_checkpoint environ hub_dir server (Some (PStr v)) download w) /\
  (environ !! "NOUGAT_CHECKPOINT" = None ->
     out = get_checkpoint environ hub_dir server
             (Some (PStr (hub_dir ++ "/nougat"))) download w).
Proof.
  intros fallback target out.
  assert (Hinit : initial_checkpoint environ hub_dir (Some (PStr ""))
                  = fallback) by reflexivity.
  assert (Hout : out =
    if download then
      if FS.exists_ (fs w) target then
        if FS.is_file (fs w) target then (Raise NotADirectoryError, w)
        else if (length (FS.listdir (fs w) target) <? 5)%nat
             then fetch_pass server target w
             else (Ok target, w)
      else fetch_pass server target w
    else (Ok target, w)).
  { unfold out. rewrite get_checkpoint_run. cbv zeta. by rewrite Hinit. }
  assert (Hcases : out = (Ok target, w) \/ out = fetch_pass server target w
                   \/ out = (Raise NotADirectoryError, w)).
  { rewrite Hout. destruct download; [|by left].
    destruct (FS.exists_ _ _); [|right; by left].
    destruct (FS.is_file _ _); [right; by right|].
    destruct (_ <? 5)%nat; [right; by left|by left]. }
  split; [reflexivity|]. split; [done|].
  split; [|split; [|split; [|split]]].
  - intros p Hp. destruct Hcases as [H|[H|H]]; rewrite H in Hp.
    + by injection Hp as <-.
    + by apply fetch_pass_returns in Hp.
    + done.
  - intros ->. by rewrite Hout.
  - intros e evs He. destruct Hcases as [H|[H|H]]; rewrite H in He.
    + simpl in He. by apply not_self_extension in He.
    + destruct (fetch_pass_starts server target w) as [evs' Hevs'].
      rewrite Hevs' in He. by apply app_inv_head in He as [= <- _].
    + simpl in He. by apply not_self_extension in He.
  - intros v Hv Hne. unfold out, get_checkpoint.
    assert (Hsame : initial_checkpoint environ hub_dir (Some (PStr v))
                    = initial_checkpoint environ hub_dir (Some (PStr ""))).
    { unfold initial_checkpoint, py_or, truthy, environ_get. rewrite Hv.
      simpl. by replace (String.eqb v "") with false
        by (symmetry; by apply String.eqb_neq). }
    by rewrite Hsame.
  - intros Hv. unfold out, get_checkpoint.
    assert (Hsame : initial_checkpoint environ hub_dir
                      (Some (PStr (hub_dir ++ "/nougat")))
                    = initial_checkpoint environ hub_dir (Some (PStr ""))).
    { unfold initial_checkpoint, py_or, truthy, environ_get. rewrite Hv.
      simpl. by rewrite nougat_suffix_not_empty. }
    by rewrite Hsame.
Qed.

End FetchPass.

Lemma fetch_iff_missing_or_incomplete_witness :
  get_checkpoint demo_environ demo_hub (steady_server 100)
    (Some (PStr "/data/ckpt")) true (mkWorld five_entries_fs [])
  = (Ok demo_dir, mkWorld five_entries_fs []) /\
  let out := get_checkpoint demo_environ demo_hub (steady_server 100)
               (Some (PStr "/data/ckpt")) true (mkWorld four_files_fs []) in
  out.1 = Ok demo_dir /\
  requests (trace out.2) = download_url <$> files /\
  fs out.2 !! (demo_dir </> "tokenizer_config.json")
  = Some (File (sample 100)).
Proof.
  split.
  - refine (proj1 (proj2 (fetch_iff_missing_or_incomplete demo_environ
              demo_hub (steady_server 100) (Some (PStr "/data/ckpt"))
              (mkWorld five_entries_fs []) _)) _).
    + by apply (bool_decide_unpack _); vm_compute.
    + vm_compute. intros [H|H]; [discriminate|lia].
  - destruct (fetch_iff_missing_or_incomplete demo_environ demo_hub
                (steady_server 100) (Some (PStr "/data/ckpt"))
                (mkWorld four_files_fs []))
      as (_ & _ & Hpass).
    + by apply (bool_decide_unpack _); vm_compute.
    + destruct Hpass as (_ & _ & Hfull); [repeat constructor|].
      destruct Hfull as (Hout & Hreq & Hstored).
      * right. vm_compute. lia.
      * repeat constructor.
      * repeat constructor.
      * cbv zeta. split; [by rewrite Hout|]. split; [exact Hreq|].
        apply Hstored; [|vm_compute; lia].
        do 4 right. by left.
Defined.

Lemma file_stands_for_parent_witness :
  let out := get_checkpoint demo_environ demo_hub (steady_server 100)
               (Some (PStr "/data/ckpt/config.json")) true
               (mkWorld four_files_fs []) in
  out.1 = Ok demo_dir /\
  requests (trace out.2) = download_url <$> files /\
  fs out.2 !! (demo_dir </> "tokenizer_config.json")
  = Some (File (sample 100)).
Proof.
  destruct (file_stands_for_parent demo_environ demo_hub (steady_server 100)
              (Some (PStr "/data/ckpt/config.json")) true
              (mkWorld four_files_fs []))
    as (_ & _ & _ & _ & _ & _ & Hfull).
  - by apply (bool_decide_unpack _); vm_compute.
  - reflexivity.
  - destruct Hfull as (Hout & Hreq & Hstored).
    + split; [reflexivity|]. vm_compute. lia.
    + repeat constructor.
    + repeat constructor.
    + cbv zeta. split; [by rewrite Hout|]. split; [exact Hreq|].
      apply (Hstored "tokenizer_config.json"); [|vm_compute; lia].
      do 4 right. by left.
Defined.

Lemma empty_string_is_no_argument_witness :
  get_checkpoint demo_environ demo_hub (steady_server 100)
    (Some (PStr "")) false (mkWorld five_entries_fs [])
  = (Ok (of_string "/env/ckpt"), mkWorld five_entries_fs []) /\
  get_checkpoint ∅ demo_hub (steady_server 100)
    (Some (PStr "")) false (mkWorld five_entries_fs [])
  = (Ok (of_string "/home/u/.cache/torch/hub/nougat"),
     mkWorld five_entries_fs []).
Proof.
  split.
  - exact (proj1 (proj2 (proj2 (proj2 (empty_string_is_no_argument
             demo_environ demo_hub (steady_server 100) false
             (mkWorld five_entries_fs []))))) eq_refl).
  - exact (proj1 (proj2 (proj2 (proj2 (empty_string_is_no_argument
             ∅ demo_hub (steady_server 100) false
             (mkWorld five_entries_fs []))))) eq_refl).
Defined.
